(** * restful_soil_sensor: a JSON API for a soil sensor

    Shallow embedding of [restful_soil_sensor.py] and the properties its
    specification states about it.

    The script is a sequence of calls into the Python run time (sockets, the
    network driver, the ADC, [print], [time.sleep]) around a little pure
    code (float arithmetic, [round], [json.dumps], string formatting, UTF-8
    encoding).  The pure built-ins are modelled after the Python language
    and library reference: [str] is a sequence of Unicode code points,
    [float] is IEEE-754 binary64 (the Standard Library's [SpecFloat] with
    precision 53 and maximal exponent 1024), a [dict] keeps insertion order,
    and [json.dumps] runs with its default arguments.  The calls into the
    run time are modelled in a state-and-exception monad over a trace of
    observable events.  Embedded are [connect_to_wifi], [get_soil_data],
    [main_loop] and the serving loop of [main]. *)

From Stdlib Require Import ZArith NArith List String Ascii Bool Lia.
From Stdlib Require Import Floats.SpecFloat.
From Stdlib Require Import Decimal DecimalString.
Import ListNotations.

Local Open Scope Z_scope.

(** ** Python [str] and [bytes] *)

(** A [str] is a sequence of code points, a [bytes] object a sequence of
    octets; both are written as natural numbers. *)
Definition codepoint := N.
Definition str := list codepoint.
Definition bytes := list N.

(** [lit s] is the [str] of an ASCII literal of the source. *)
Definition lit (s : string) : str :=
  map N_of_ascii (list_ascii_of_string s).

Definition LF : str := [10%N].
Definition DQUOTE : str := [34%N].

(** A literal between double quotes, as it appears inside a JSON text. *)
Definition quoted (s : string) : str := DQUOTE ++ lit s ++ DQUOTE.

Definition py_len {A} (s : list A) : Z := Z.of_nat (List.length s).

(** [str(n)] for an [int]. *)
Definition py_str_int (n : Z) : str :=
  lit (NilZero.string_of_int (Z.to_int n)).

(** [s.encode("utf-8")]: one to four octets per code point; a surrogate
    cannot be encoded and raises [UnicodeEncodeError], modelled by [None]. *)
Definition utf8_encode_char (c : codepoint) : option bytes :=
  if (c <? 128)%N then Some [c]
  else if (c <? 2048)%N then
    Some [N.lor 192 (N.shiftr c 6); N.lor 128 (N.land c 63)]
  else if (c <? 65536)%N then
    if ((55296 <=? c) && (c <=? 57343))%N then None
    else Some [N.lor 224 (N.shiftr c 12);
               N.lor 128 (N.land (N.shiftr c 6) 63);
               N.lor 128 (N.land c 63)]
  else if (c <? 1114112)%N then
    Some [N.lor 240 (N.shiftr c 18);
          N.lor 128 (N.land (N.shiftr c 12) 63);
          N.lor 128 (N.land (N.shiftr c 6) 63);
          N.lor 128 (N.land c 63)]
  else None.

Fixpoint utf8_encode (s : str) : option bytes :=
  match s with
  | [] => Some []
  | c :: s' =>
      match utf8_encode_char c, utf8_encode s' with
      | Some b, Some bs => Some (b ++ bs)
      | _, _ => None
      end
  end.

(** ** Python [float] *)

Definition float := spec_float.

Definition prec : Z := 53.
Definition emax : Z := 1024.

Definition fdiv : float -> float -> float := SFdiv prec emax.
Definition fmul : float -> float -> float := SFmul prec emax.

(** [float(n)] for an [int]: the nearest binary64 number. *)
Definition float_of_int (n : Z) : float := binary_normalize prec emax n 0 false.

(** [x > y] on floats. *)
Definition fgt (x y : float) : bool := SFltb y x.
Definition fle (x y : float) : bool := SFleb x y.

(** The binary64 number nearest to the rational [n / d] (ties to even),
    with the sign [neg]: what [strtod] returns for a decimal string. *)
Definition nearest_float (neg : bool) (n : Z) (d : positive) : float :=
  match n with
  | Zpos p => fdiv (S754_finite neg p 0) (S754_finite false d 0)
  | _ => S754_zero neg
  end.

(** The decimal [m * 10^e] as a float: a float literal of the source. *)
Definition decimal (m : Z) (e : Z) : float :=
  match e with
  | Zneg k => nearest_float (m <? 0) (Z.abs m) (Pos.pow 10 k)
  | _ => nearest_float (m <? 0) (Z.abs m * 10 ^ e) 1
  end.

(** Integer quotient [n / d] rounded to the nearest integer, ties to even. *)
Definition div_half_even (n : Z) (d : Z) : Z :=
  let '(q, r) := Z.div_eucl n d in
  match 2 * r ?= d with
  | Lt => q
  | Gt => q + 1
  | Eq => if Z.even q then q else q + 1
  end.

(** The magnitude of a finite float as an exact fraction. *)
Definition fraction_of (m : positive) (e : Z) : Z * Z :=
  match e with
  | Zneg k => (Zpos m, Zpos (Pos.pow 2 k))
  | _ => (Zpos m * 2 ^ e, 1)
  end.

(** The exact value of the finite float [m * 2^e], scaled by [10^ndigits]
    and rounded to the nearest integer, ties to even. *)
Definition round_scaled (m : positive) (e : Z) (ndigits : N) : Z :=
  let '(n, d) := fraction_of m e in
  div_half_even (n * 10 ^ Z.of_N ndigits) d.

(** [round(x, ndigits)] for a float and [ndigits >= 0]: the exact value of
    [x] is rounded to [ndigits] decimal places, ties to even, and the
    resulting decimal is converted back to the nearest float. *)
Definition py_round (x : float) (ndigits : N) : float :=
  match x with
  | S754_finite s m e =>
      nearest_float s (round_scaled m e ndigits) (Z.to_pos (10 ^ Z.of_N ndigits))
  | _ => x
  end.

(** [a / b] on two [int]s, for [b <> 0]: true division gives the float
    nearest to the quotient. *)
Definition int_truediv (a b : Z) : float :=
  nearest_float (xorb (a <? 0) (b <? 0)) (Z.abs a) (Z.to_pos (Z.abs b)).

(** [x * n] for an [int] [n], which is converted to a float first. *)
Definition fmul_int (x : float) (n : Z) : float := fmul x (float_of_int n).

(** *** [repr] of a float

    [float.__repr__] prints the shortest decimal that converts back to the
    same float and, among those, the one nearest to it. *)

(** [pow10_le k n d]: whether [10^k <= n / d]. *)
Definition pow10_le (k : Z) (n d : Z) : bool :=
  match k with
  | Zneg p => d <=? n * Zpos (Pos.pow 10 p)
  | _ => 10 ^ k * d <=? n
  end.

(** The decimal exponent of [n / d]: the [k] with [10^k <= n / d < 10^(k+1)],
    found upwards from an under-estimate taken from the binary lengths. *)
Fixpoint exponent10_from (fuel : nat) (k : Z) (n d : Z) : Z :=
  match fuel with
  | O => k
  | S fuel' =>
      if pow10_le (k + 1) n d then exponent10_from fuel' (k + 1) n d else k
  end.

Definition exponent10 (n d : Z) : Z :=
  exponent10_from 4 ((Z.log2 n - Z.log2 d - 1) * 30103 / 100000 - 1) n d.

(** Does the decimal [c * 10^q] convert back to the float [x]? *)
Definition reads_back (x : float) (c : Z) (q : Z) : bool :=
  SFeqb (decimal c q) x.

(** The decimals [c * 10^q] just below and just above [n / d]; the result is
    the one that reads back as [x], the nearer one when both do. *)
Definition shortest_at (x : float) (n d : Z) (q : Z) : option Z :=
  let '(sn, sd) := match q with
                   | Zneg p => (n * Zpos (Pos.pow 10 p), d)
                   | _ => (n, d * 10 ^ q)
                   end in
  let lo := sn / sd in
  let hi := lo + 1 in
  match reads_back x lo q, reads_back x hi q with
  | true, true =>
      match 2 * (sn mod sd) ?= sd with
      | Lt => Some lo
      | Gt => Some hi
      | Eq => Some (if Z.even lo then lo else hi)
      end
  | true, false => Some lo
  | false, true => Some hi
  | false, false => None
  end.

(** Try 1, 2, ... significant digits. *)
Fixpoint shortest_from (fuel : nat) (x : float) (n d : Z) (q : Z) : Z * Z :=
  match shortest_at x n d q with
  | Some c => (c, q)
  | None =>
      match fuel with
      | O => (n / d, 0)
      | S fuel' => shortest_from fuel' x n d (q - 1)
      end
  end.

(** Drop the trailing zeros of [c], raising the exponent. *)
Fixpoint strip_zeros (fuel : nat) (c q : Z) : Z * Z :=
  match fuel with
  | O => (c, q)
  | S fuel' =>
      if (c mod 10 =? 0) && negb (c =? 0)
      then strip_zeros fuel' (c / 10) (q + 1) else (c, q)
  end.

(** The digits of the shortest decimal of a positive finite float and the
    position of its decimal point. *)
Definition shortest_digits (m : positive) (e : Z) : str * Z :=
  let '(n, d) := fraction_of m e in
  let k := exponent10 n d in
  let '(c, q) := shortest_from 17 (S754_finite false m e) n d k in
  let '(c, q) := strip_zeros 17 c q in
  let ds := py_str_int c in
  (ds, q + py_len ds).

Definition zeros (n : Z) : str := repeat 48%N (Z.to_nat n).

(** [float_repr_style = 'short']: fixed notation while the decimal point
    lies within the digits or at most 16 places to their right or 4 to
    their left, exponent notation otherwise. *)
Definition format_short (ds : str) (decpt : Z) : str :=
  if (decpt <=? -4) || (16 <? decpt) then
    let exp := decpt - 1 in
    firstn 1 ds
      ++ (match skipn 1 ds with [] => [] | frac => lit "." ++ frac end)
      ++ lit "e" ++ (if exp <? 0 then lit "-" else lit "+")
      ++ (if Z.abs exp <? 10 then lit "0" else []) ++ py_str_int (Z.abs exp)
  else if decpt <=? 0 then
    lit "0." ++ zeros (- decpt) ++ ds
  else if decpt <? py_len ds then
    firstn (Z.to_nat decpt) ds ++ lit "." ++ skipn (Z.to_nat decpt) ds
  else
    ds ++ zeros (decpt - py_len ds) ++ lit ".0".

Definition float_repr (x : float) : str :=
  match x with
  | S754_nan => lit "nan"
  | S754_infinity s => if s then lit "-inf" else lit "inf"
  | S754_zero s => if s then lit "-0.0" else lit "0.0"
  | S754_finite s m e =>
      let '(ds, decpt) := shortest_digits m e in
      (if s then lit "-" else []) ++ format_short ds decpt
  end.

(** ** [json.dumps] *)

Definition hex_digit (n : N) : codepoint :=
  if (n <? 10)%N then (48 + n)%N else (87 + n)%N.

(** ['{0:04x}'.format(n)] *)
Definition hex4 (n : N) : str :=
  [hex_digit (N.land (N.shiftr n 12) 15); hex_digit (N.land (N.shiftr n 8) 15);
   hex_digit (N.land (N.shiftr n 4) 15); hex_digit (N.land n 15)].

Definition backslash_u (n : N) : str := lit "\u" ++ hex4 n.

(** The short escapes of the encoder's [ESCAPE_DCT]. *)
Definition short_escape (c : codepoint) : option str :=
  if (c =? 92)%N then Some (lit "\\")
  else if (c =? 34)%N then Some (lit "\" ++ DQUOTE)
  else if (c =? 8)%N then Some (lit "\b")
  else if (c =? 12)%N then Some (lit "\f")
  else if (c =? 10)%N then Some (lit "\n")
  else if (c =? 13)%N then Some (lit "\r")
  else if (c =? 9)%N then Some (lit "\t")
  else None.

(** One character of [encode_basestring_ascii]: everything outside
    [' '..'~'] is escaped, code points above the BMP as a surrogate pair. *)
Definition escape_ascii (c : codepoint) : str :=
  match short_escape c with
  | Some e => e
  | None =>
      if ((32 <=? c) && (c <=? 126))%N then [c]
      else if (c <? 65536)%N then backslash_u c
      else
        let n := (c - 65536)%N in
        backslash_u (N.lor 55296 (N.land (N.shiftr n 10) 1023))
          ++ backslash_u (N.lor 56320 (N.land n 1023))
  end.

(** One character of [encode_basestring]: only the quote, the backslash and
    the control characters are escaped. *)
Definition escape_plain (c : codepoint) : str :=
  match short_escape c with
  | Some e => e
  | None => if (c <? 32)%N then backslash_u c else [c]
  end.

Definition encode_basestring (ensure_ascii : bool) (s : str) : str :=
  DQUOTE ++ flat_map (if ensure_ascii then escape_ascii else escape_plain) s
         ++ DQUOTE.

(** The encoder's [floatstr]. *)
Definition floatstr (x : float) : str :=
  match x with
  | S754_nan => lit "NaN"
  | S754_infinity s => if s then lit "-Infinity" else lit "Infinity"
  | _ => float_repr x
  end.

(** The values the script serializes. *)
Inductive pyobj :=
| PyStr (s : str)
| PyFloat (x : float)
| PyBool (b : bool).

(** A [dict] with [str] keys, in insertion order. *)
Definition dict := list (str * pyobj).

Definition json_value (ensure_ascii : bool) (v : pyobj) : str :=
  match v with
  | PyStr s => encode_basestring ensure_ascii s
  | PyFloat x => floatstr x
  | PyBool b => if b then lit "true" else lit "false"
  end.

Definition json_item (ensure_ascii : bool) (kv : str * pyobj) : str :=
  encode_basestring ensure_ascii (fst kv) ++ lit ": "
    ++ json_value ensure_ascii (snd kv).

Fixpoint join (sep : str) (l : list str) : str :=
  match l with
  | [] => []
  | [x] => x
  | x :: l' => x ++ sep ++ join sep l'
  end.

(** [json.dumps(d, ensure_ascii=...)] with the default separators. *)
Definition json_dumps_with (ensure_ascii : bool) (d : dict) : str :=
  lit "{" ++ join (lit ", ") (map (json_item ensure_ascii) d) ++ lit "}".

(** [json.dumps(d)]: [ensure_ascii] defaults to [True]. *)
Definition json_dumps (d : dict) : str := json_dumps_with true d.

(** ** [repr] of a [bytes] object, as an f-string prints it *)

Definition hex2 (n : N) : str :=
  [hex_digit (N.land (N.shiftr n 4) 15); hex_digit (N.land n 15)].

Definition bytes_repr_char (quote : N) (c : N) : str :=
  if ((c =? quote) || (c =? 92))%N then [92%N; c]
  else if (c =? 9)%N then lit "\t"
  else if (c =? 10)%N then lit "\n"
  else if (c =? 13)%N then lit "\r"
  else if ((c <? 32) || (127 <=? c))%N then lit "\x" ++ hex2 c
  else [c].

Definition bytes_repr (b : bytes) : str :=
  let quote := if existsb (N.eqb 39) b && negb (existsb (N.eqb 34) b)
               then 34%N else 39%N in
  lit "b" ++ [quote] ++ flat_map (bytes_repr_char quote) b ++ [quote].

(** ** Exceptions and the run-time monad *)

Inductive exn_class :=
| OSError
| RuntimeError
| UnboundLocalError
| UnicodeEncodeError
| MemoryError
| KeyboardInterrupt.

(** An exception object: its class and what [str(err)] prints. *)
Record exn := mk_exn { exn_type : exn_class; exn_str : str }.

(** [isinstance(err, Exception)]: [KeyboardInterrupt] derives from
    [BaseException] only. *)
Definition is_Exception (e : exn) : bool :=
  match exn_type e with
  | KeyboardInterrupt => false
  | _ => true
  end.

Inductive outcome (A : Type) :=
| Return (a : A)
| Raise (e : exn).
Arguments Return {A} a.
Arguments Raise {A} e.

(** A computation over a state [S] that returns or raises. *)
Definition M (S A : Type) := S -> outcome A * S.

Definition ret {S A} (a : A) : M S A := fun s => (Return a, s).

Definition raise {S A} (e : exn) : M S A := fun s => (Raise e, s).

Definition bind {S A B} (m : M S A) (k : A -> M S B) : M S B :=
  fun s => match m s with
           | (Return a, s') => k a s'
           | (Raise e, s') => (Raise e, s')
           end.

(** [try: body except Exception as err: handler err] *)
Definition try_except {S A} (body : M S A) (handler : exn -> M S A) : M S A :=
  fun s => match body s with
           | (Raise e, s') =>
               if is_Exception e then handler e s' else (Raise e, s')
           | r => r
           end.

Notation "x <- m ;; k" := (bind m (fun x => k))
  (at level 61, m at next level, right associativity).
Notation "m ;; k" := (bind m (fun _ => k))
  (at level 61, right associativity).

(** ** The world the script acts on *)

(** An accepted client socket; [conn_request] is what the client has
    written to it. *)
Record socket := mk_socket { conn_id : N; conn_request : bytes }.

(** The remote address [accept] returns with the socket. *)
Definition address := (str * Z)%type.

(** What the script does to the outside, in order. *)
Inductive event :=
| EPrint (line : str)
| ESleep (seconds : Z)
| ESend (c : socket) (data : bytes)
| EClose (c : socket)
| EActive (on : bool)
| EConnect (ssid password : str).

Definition emit {S} (upd : event -> S -> S) (e : event) : M S unit :=
  fun s => (Return tt, upd e s).

(** ** Configuration *)

Record config := mk_config {
  PLANT_NAME : str;
  MAX_DRYNESS_PERCENTAGE : float;
  SSID : str;
  PASSWORD : str;
  MAX_WIFI_CONNECTION_ATTEMPTS : Z;
  LISTENING_PORT : Z
}.

(** The constants of the source. *)
Definition source_config : config :=
  {| PLANT_NAME := lit "Andrew's Yucca Plant";
     MAX_DRYNESS_PERCENTAGE := decimal 600 (-1);
     SSID := lit "Fast Internet";
     PASSWORD := lit "your_wifi_password";
     MAX_WIFI_CONNECTION_ATTEMPTS := 30;
     LISTENING_PORT := 80 |}.

(** ** [connect_to_wifi] *)

(** The network driver as the script sees it: the MAC address, the value
    each successive call of [wlan.status()] reports, and the interface
    configuration [(ip, subnet, gateway, dns)]. *)
Record wlan := mk_wlan {
  wlan_mac : bytes;
  wlan_status : nat -> Z;
  wlan_ifconfig : str * str * str * str
}.

Record wifi_state := mk_wifi_state {
  wifi_trace : list event;
  status_calls : nat
}.

Definition wifi_init : wifi_state := mk_wifi_state [] 0.

Definition wifi_emit : event -> M wifi_state unit :=
  emit (fun e s => mk_wifi_state (wifi_trace s ++ [e]) (status_calls s)).

(** [wlan.status()]: the next reported value. *)
Definition status (w : wlan) : M wifi_state Z :=
  fun s => (Return (wlan_status w (status_calls s)),
            mk_wifi_state (wifi_trace s) (S (status_calls s))).

(** [ubinascii.hexlify(data, ':').decode()] *)
Definition hexlify (sep : str) (data : bytes) : str := join sep (map hex2 data).

Definition WAITING : str := lit "Waiting for connection to WiFi...".

(** The [while max_wait > 0] loop; [max_wait] counts down by one per round,
    so the loop is a recursion on it.  The test
    [wlan.status() < 0 or wlan.status() >= 3] asks the driver a second time
    when the first answer is not negative. *)
Fixpoint wait_loop (w : wlan) (max_wait : nat) : M wifi_state unit :=
  match max_wait with
  | O => ret tt
  | S max_wait' =>
      s1 <- status w ;;
      stop <- (if s1 <? 0 then ret true
               else s2 <- status w ;; ret (3 <=? s2)) ;;
      if (stop : bool) then ret tt
      else
        wifi_emit (EPrint WAITING) ;;
        wifi_emit (ESleep 1) ;;
        wait_loop w max_wait'
  end.

Definition CONNECTION_FAILED : exn :=
  mk_exn RuntimeError (lit "Network connection failed!").

(** The statements before the loop. *)
Definition wifi_start (cfg : config) (w : wlan) : M wifi_state unit :=
  wifi_emit (EActive true) ;;
  let mac_address := hexlify (lit ":") (wlan_mac w) in
  wifi_emit (EPrint (lit "Connecting to WiFi network " ++ SSID cfg ++ lit "...")) ;;
  wifi_emit (EPrint (lit "MAC Address: " ++ mac_address)) ;;
  wifi_emit (EConnect (SSID cfg) (PASSWORD cfg)).

(** The statements after the loop. *)
Definition wifi_finish (cfg : config) (w : wlan) : M wifi_state str :=
  s <- status w ;;
  if negb (s =? 3) then raise CONNECTION_FAILED
  else
    let ip_address := fst (fst (fst (wlan_ifconfig w))) in
    wifi_emit (EPrint (lit "Connected to WiFi network " ++ SSID cfg ++ lit "!")) ;;
    wifi_emit (EPrint (lit "IP Address: " ++ ip_address)) ;;
    ret ip_address.

Definition connect_to_wifi (cfg : config) (w : wlan) : M wifi_state str :=
  wifi_start cfg w ;;
  wait_loop w (Z.to_nat (MAX_WIFI_CONNECTION_ATTEMPTS cfg)) ;;
  wifi_finish cfg w.

(** ** [get_soil_data] and [main_loop] *)

(** The calls of [main_loop] into the run time. *)
Inductive site :=
| AtAccept
| AtPrintRequest
| AtReadADC
| AtSend
| AtPrintSent
| AtSleep
| AtClose
| AtHandlerClose
| AtHandlerPrint.

(** One round of the server as its surroundings determine it: which calls
    fail and with what, the connection [listener.accept()] yields, and the
    sample [DATA_PIN.read_u16()] yields. *)
Record request_env := mk_env {
  fault : site -> option exn;
  incoming : socket * address;
  adc_value : Z
}.

(** The frame of [main_loop]: [client] is unbound until [accept] returns. *)
Record handler_state := mk_handler_state {
  trace : list event;
  client : option socket
}.

Definition handler_init : handler_state := mk_handler_state [] None.

Section Handler.

Variable cfg : config.
Variable env : request_env.

Definition out : event -> M handler_state unit :=
  emit (fun e s => mk_handler_state (trace s ++ [e]) (client s)).

(** A call that raises when the surroundings make it fail at this site and
    proceeds otherwise. *)
Definition at_site {A} (p : site) (call : M handler_state A) : M handler_state A :=
  match fault env p with
  | Some e => raise e
  | None => call
  end.

Definition accept : M handler_state (socket * address) := ret (incoming env).

Definition read_u16 : M handler_state Z := ret (adc_value env).

Definition bind_client (c : socket) : M handler_state unit :=
  fun s => (Return tt, mk_handler_state (trace s) (Some c)).

(** Reading the local [client]; unbound, it raises [UnboundLocalError]. *)
Definition load_client : M handler_state socket :=
  fun s => match client s with
           | Some c => (Return c, s)
           | None =>
               (Raise (mk_exn UnboundLocalError
                         (lit "local variable 'client' referenced before assignment")),
                s)
           end.

Definition encode (s : str) : M handler_state bytes :=
  match utf8_encode s with
  | Some b => ret b
  | None => raise (mk_exn UnicodeEncodeError (lit "surrogates not allowed"))
  end.

Definition dryness_of (raw : Z) : float :=
  py_round (fmul_int (int_truediv raw 65535) 100) 1.

Definition get_soil_data : M handler_state (float * bool) :=
  raw <- at_site AtReadADC read_u16 ;;
  let value := dryness_of raw in
  ret (value, fgt value (MAX_DRYNESS_PERCENTAGE cfg)).

(** [result]: the JSON text of the reading. *)
Definition result_of (dryness : float) (is_too_dry : bool) : str :=
  json_dumps
    [ (lit "plant", PyStr (PLANT_NAME cfg));
      (lit "dryness_percent", PyFloat dryness);
      (lit "max_allowable_dryness", PyFloat (MAX_DRYNESS_PERCENTAGE cfg));
      (lit "is_plant_too_dry", PyBool is_too_dry) ].

(** [response] before it is encoded. *)
Definition response_text (result : str) : str :=
  lit "HTTP/1.1 200 OK" ++ LF
    ++ lit "Content-Length: " ++ py_str_int (py_len result) ++ LF
    ++ lit "Content-Type: application/json" ++ LF ++ LF
    ++ result ++ LF.

Definition main_loop_body : M handler_state unit :=
  ca <- at_site AtAccept accept ;;
  bind_client (fst ca) ;;
  let request_ip := fst (snd ca) in
  at_site AtPrintRequest
    (out (EPrint (lit "Request received from " ++ request_ip ++ lit "."))) ;;
  reading <- get_soil_data ;;
  let result := result_of (fst reading) (snd reading) in
  response <- encode (response_text result) ;;
  c <- load_client ;;
  at_site AtSend (out (ESend c response)) ;;
  at_site AtPrintSent
    (out (EPrint (lit "Sent to " ++ request_ip ++ lit ": " ++ bytes_repr response))) ;;
  at_site AtSleep (out (ESleep 1)) ;;
  c <- load_client ;;
  at_site AtClose (out (EClose c)).

Definition main_loop_handler (err : exn) : M handler_state unit :=
  c <- load_client ;;
  at_site AtHandlerClose (out (EClose c)) ;;
  at_site AtHandlerPrint (out (EPrint (lit "Connection closed: " ++ exn_str err))).

(** A call starts with a fresh frame. *)
Definition enter : M handler_state unit :=
  fun s => (Return tt, mk_handler_state (trace s) None).

Definition main_loop : M handler_state unit :=
  enter ;; try_except main_loop_body main_loop_handler.

End Handler.

(** The [while True: main_loop(listener)] of [main], run for the rounds
    given; a round that raises ends the loop. *)
Fixpoint serve (cfg : config) (rounds : list request_env) : M handler_state unit :=
  match rounds with
  | [] => ret tt
  | env :: rounds' => main_loop cfg env ;; serve cfg rounds'
  end.

(** ** Observations on a trace *)

Definition sent (t : list event) : list bytes :=
  flat_map (fun e => match e with ESend _ d => [d] | _ => [] end) t.

Definition printed (t : list event) : list str :=
  flat_map (fun e => match e with EPrint l => [l] | _ => [] end) t.

Definition closed (t : list event) : list socket :=
  flat_map (fun e => match e with EClose c => [c] | _ => [] end) t.

Definition sleeps (t : list event) : list Z :=
  flat_map (fun e => match e with ESleep n => [n] | _ => [] end) t.

(** The surroundings in which no call fails. *)
Definition no_fault : site -> option exn := fun _ => None.

(** The surroundings in which exactly the call at [p] fails, with [e]. *)
Definition site_eqb (p q : site) : bool :=
  match p, q with
  | AtAccept, AtAccept | AtPrintRequest, AtPrintRequest
  | AtReadADC, AtReadADC | AtSend, AtSend | AtPrintSent, AtPrintSent
  | AtSleep, AtSleep | AtClose, AtClose | AtHandlerClose, AtHandlerClose
  | AtHandlerPrint, AtHandlerPrint => true
  | _, _ => false
  end.

Definition fault_at (p : site) (e : exn) : site -> option exn :=
  fun q => if site_eqb p q then Some e else None.

(** ** Notions used in the statements *)

(** A text of printable ASCII characters only: no control character, so in
    particular neither a line feed nor a carriage return. *)
Definition printable_char (c : N) : Prop := (32 <= c <= 126)%N.
Definition printable (s : str) : Prop := Forall printable_char s.

(** The same as a check that computes, for the literals of the source. *)
Definition printableb (s : str) : bool :=
  forallb (fun c => (32 <=? c)%N && (c <=? 126)%N) s.

(** The steps of the [try] block after [accept], each with the call that
    may fail and the events it produces when it does not. *)
Definition body_steps (c : socket) (request_ip : str) (response : bytes)
  : list (site * list event) :=
  [ (AtPrintRequest, [EPrint (lit "Request received from " ++ request_ip ++ lit ".")]);
    (AtReadADC, []);
    (AtSend, [ESend c response]);
    (AtPrintSent, [EPrint (lit "Sent to " ++ request_ip ++ lit ": " ++ bytes_repr response)]);
    (AtSleep, [ESleep 1]);
    (AtClose, [EClose c]) ].

(** The events of the steps completed before the first failing call, and
    the exception of that call if there is one. *)
Fixpoint run_steps (f : site -> option exn) (l : list (site * list event))
  : list event * option exn :=
  match l with
  | [] => ([], None)
  | (p, evs) :: l' =>
      match f p with
      | Some e => ([], Some e)
      | None => let '(t, r) := run_steps f l' in (evs ++ t, r)
      end
  end.

(** The response a round sends when it gets that far. *)
Definition response_of (cfg : config) (env : request_env) : bytes :=
  let value := dryness_of (adc_value env) in
  response_text (result_of cfg value (fgt value (MAX_DRYNESS_PERCENTAGE cfg))).

(** [n] rounds of waiting. *)
Fixpoint waiting_rounds (n : nat) : list event :=
  match n with
  | O => []
  | S n' => EPrint WAITING :: ESleep 1 :: waiting_rounds n'
  end.

(** [1000 * r / 65535] rounded to the nearest integer: the reading in
    tenths of a percent, in exact arithmetic. *)
Definition tenths (r : Z) : Z := (2000 * r + 65535) / 131070.

(** [round_scaled] for a negative exponent, with the division by the power
    of two done by shifting and masking. *)
Definition round_scaled_shift (m k : positive) (ndigits : N) : Z :=
  let n := Zpos m * 10 ^ Z.of_N ndigits in
  let q := Z.shiftr n (Zpos k) in
  let r := Z.land n (Z.ones (Zpos k)) in
  match 2 * r ?= 2 ^ Zpos k with
  | Lt => q
  | Gt => q + 1
  | Eq => if Z.even q then q else q + 1
  end.

(** The check of one sample: the product [raw / 65535 * 100] is a positive
    float that rounds to [t] tenths, where [t] is the integer nearest to
    [1000 * raw / 65535]. *)
Definition reading_check (r : Z) : bool :=
  match fmul_int (int_truediv r 65535) 100 with
  | S754_finite false m (Zneg k) =>
      let t := round_scaled_shift m k 1 in
      (131070 * t <=? 2000 * r + 65535) && (2000 * r + 65535 <? 131070 * (t + 1))
  | S754_zero false => r =? 0
  | _ => false
  end.

(** [P] holds on the [2 ^ depth] integers from [lo] on. *)
Fixpoint all_from (depth : nat) (lo : Z) (P : Z -> bool) : bool :=
  match depth with
  | O => P lo
  | S d => all_from d lo P && all_from d (lo + 2 ^ Z.of_nat d) P
  end.

(** ** [make_socket] and [main] *)

(** The calls of [make_socket] into the run time. *)
Inductive socket_site :=
| AtGetaddrinfo
| AtSocket
| AtBind
| AtListen.

(** The socket layer as [make_socket] sees it: which calls fail, the socket
    address in the first entry [socket.getaddrinfo(host, port)] returns (the
    [[0][-1]] of the source; the call raises rather than return an empty
    list), and the object [socket.socket()] returns. *)
Record socket_env := mk_socket_env {
  socket_fault : socket_site -> option exn;
  resolved : str -> Z -> address;
  new_socket : N
}.

(** What [main] does to the outside: the events of the bootstrap and of the
    rounds, and the calls on the listening socket. *)
Inductive main_event :=
| Ev (e : event)
| EGetaddrinfo (host : str) (port : Z)
| ESocket (s : N)
| EBind (s : N) (addr : address)
| EListen (s : N) (backlog : Z).

Definition note (e : main_event) : M (list main_event) unit :=
  fun t => (Return tt, t ++ [e]).

Definition socket_call {A} (senv : socket_env) (p : socket_site)
    (call : M (list main_event) A) : M (list main_event) A :=
  match socket_fault senv p with
  | Some e => raise e
  | None => call
  end.

Definition make_socket (senv : socket_env) (port : Z) : M (list main_event) N :=
  addr <- socket_call senv AtGetaddrinfo
            (note (EGetaddrinfo (lit "0.0.0.0") port) ;;
             ret (resolved senv (lit "0.0.0.0") port)) ;;
  s <- socket_call senv AtSocket
         (note (ESocket (new_socket senv)) ;; ret (new_socket senv)) ;;
  socket_call senv AtBind (note (EBind s addr)) ;;
  socket_call senv AtListen (note (EListen s 1)) ;;
  ret s.

(** A call of [connect_to_wifi] from [main]: it runs from its initial state
    and its events join the trace of [main]. *)
Definition run_wifi {A} (m : M wifi_state A) : M (list main_event) A :=
  fun t => let '(r, w) := m wifi_init in (r, t ++ map Ev (wifi_trace w)).

(** The rounds of [main_loop] called from [main], likewise. *)
Definition run_rounds {A} (m : M handler_state A) : M (list main_event) A :=
  fun t => let '(r, h) := m handler_init in (r, t ++ map Ev (trace h)).

Definition STARTED : str := lit "Started! Configuring pins...".

Definition listening_line (cfg : config) (ip_address : str) : str :=
  lit "Listening for requests on http://" ++ ip_address ++ lit ":"
    ++ py_str_int (LISTENING_PORT cfg) ++ lit "...".

(** [main], its [while True] loop run for the rounds given. *)
Definition main (cfg : config) (w : wlan) (senv : socket_env)
    (rounds : list request_env) : M (list main_event) unit :=
  note (Ev (EPrint STARTED)) ;;
  ip_address <- run_wifi (connect_to_wifi cfg w) ;;
  listener <- make_socket senv (LISTENING_PORT cfg) ;;
  note (Ev (EPrint (listening_line cfg ip_address))) ;;
  run_rounds (serve cfg rounds).

(** ** Further notions used in the statements *)

(** A round whose failures the [except] clause can deal with: [accept]
    returns, what fails raises an [Exception], and the two calls of the
    clause complete. *)
Definition handled_round (env : request_env) : Prop :=
  fault env AtAccept = None /\
  (forall p e, fault env p = Some e -> is_Exception e = true) /\
  fault env AtHandlerClose = None /\
  fault env AtHandlerPrint = None.

(** Whether a round gets as far as a completed [client.send]. *)
Definition sends (env : request_env) : bool :=
  match fault env AtPrintRequest, fault env AtReadADC, fault env AtSend with
  | None, None, None => true
  | _, _, _ => false
  end.

(** The failure of the first call of [make_socket] that fails, if any. *)
Definition socket_failure (senv : socket_env) : option exn :=
  match socket_fault senv AtGetaddrinfo, socket_fault senv AtSocket,
        socket_fault senv AtBind, socket_fault senv AtListen with
  | Some e, _, _, _ => Some e
  | None, Some e, _, _ => Some e
  | None, None, Some e, _ => Some e
  | None, None, None, r => r
  end.

(** The events of a trace that concern the listening socket. *)
Definition socket_events (t : list main_event) : list main_event :=
  filter (fun e => match e with Ev _ => false | _ => true end) t.

(** The events of a trace that come from the bootstrap or the rounds. *)
Definition script_events (t : list main_event) : list event :=
  flat_map (fun e => match e with Ev e' => [e'] | _ => [] end) t.

(** Equality of texts, as a check that computes. *)
Fixpoint str_eqb (s t : str) : bool :=
  match s, t with
  | [], [] => true
  | c :: s', d :: t' => (c =? d)%N && str_eqb s' t'
  | _, _ => false
  end.

(** The text of [t] tenths with one digit after the point. *)
Definition one_decimal (t : Z) : str :=
  py_str_int (t / 10) ++ lit "." ++ py_str_int (t mod 10).

(** ** The built-ins on known values *)

Example float_repr_samples :
  float_repr (decimal 1 (-1)) = lit "0.1" /\
  float_repr (int_truediv 1 3) = lit "0.3333333333333333" /\
  float_repr (fmul_int (decimal 1 (-1)) 3) = lit "0.30000000000000004" /\
  float_repr (fmul_int (int_truediv 20000 65535) 100) = lit "30.518043793392845" /\
  float_repr (decimal 1 16) = lit "1e+16" /\
  float_repr (decimal 1 15) = lit "1000000000000000.0" /\
  float_repr (decimal 15 (-6)) = lit "1.5e-05" /\
  float_repr (decimal 5 (-324)) = lit "5e-324" /\
  float_repr (decimal (-25) (-1)) = lit "-2.5".
Proof. vm_compute. repeat split. Qed.

Example py_round_samples :
  py_round (decimal 25 (-1)) 0 = decimal 2 0 /\
  py_round (decimal 35 (-1)) 0 = decimal 4 0 /\
  py_round (decimal 2675 (-3)) 2 = decimal 267 (-2) /\
  py_round (decimal 305180437 (-7)) 1 = decimal 305 (-1) /\
  py_round (decimal (-4) (-2)) 1 = S754_zero true.
Proof. vm_compute. repeat split. Qed.

Example utf8_encode_samples :
  utf8_encode [233; 8364; 128512]%N
    = Some [195; 169; 226; 130; 172; 240; 159; 152; 128]%N /\
  utf8_encode [55296]%N = None.
Proof. vm_compute. repeat split. Qed.

Example json_dumps_sample :
  json_dumps [ (lit "k", PyStr [233; 10; 34; 128512]%N); (lit "x", PyFloat (decimal 1 (-1)));
               (lit "b", PyBool true) ]
    = lit "{" ++ quoted "k" ++ lit ": " ++ DQUOTE ++ lit "\u00e9\n\" ++ DQUOTE
        ++ lit "\ud83d\ude00" ++ DQUOTE ++ lit ", " ++ quoted "x" ++ lit ": 0.1, "
        ++ quoted "b" ++ lit ": true}".
Proof. vm_compute. reflexivity. Qed.

Example hexlify_sample :
  hexlify (lit ":") [40; 205; 193; 0; 171; 18]%N = lit "28:cd:c1:00:ab:12".
Proof. vm_compute. reflexivity. Qed.

Example bytes_repr_sample :
  bytes_repr ([72; 10; 200]%N ++ DQUOTE) = lit "b'H\n\xc8" ++ DQUOTE ++ lit "'".
Proof. vm_compute. reflexivity. Qed.

(** ** Texts *)

Lemma printableb_sound s : printableb s = true -> printable s.
Proof.
  unfold printableb, printable. rewrite forallb_forall, Forall_forall.
  intros H c Hc. apply H in Hc. apply andb_prop in Hc as [H1 H2].
  apply N.leb_le in H1, H2. split; assumption.
Qed.

(** A literal is printable by evaluation. *)
Ltac printable_lit := apply printableb_sound; reflexivity.

Lemma printable_nil : printable [].
Proof. constructor. Qed.

Lemma printable_app s t : printable s -> printable t -> printable (s ++ t).
Proof. unfold printable. intros; apply Forall_app; split; assumption. Qed.

Lemma printable_flat_map (f : N -> str) s :
  (forall c, printable (f c)) -> printable (flat_map f s).
Proof.
  intros Hf. induction s as [|c s IH]; simpl.
  - constructor.
  - apply printable_app; [apply Hf | exact IH].
Qed.

Lemma printable_join sep l :
  printable sep -> Forall printable l -> printable (join sep l).
Proof.
  intros Hsep. induction 1 as [|x l Hx Hl IH]; simpl.
  - constructor.
  - destruct l as [|y l'].
    + exact Hx.
    + apply printable_app; [exact Hx|]. apply printable_app; [exact Hsep | exact IH].
Qed.

Lemma printable_firstn n s : printable s -> printable (firstn n s).
Proof.
  unfold printable. intros H. rewrite <- (firstn_skipn n s) in H.
  apply Forall_app in H. apply H.
Qed.

Lemma printable_skipn n s : printable s -> printable (skipn n s).
Proof.
  unfold printable. intros H. rewrite <- (firstn_skipn n s) in H.
  apply Forall_app in H. apply H.
Qed.

Lemma printable_zeros n : printable (zeros n).
Proof.
  unfold zeros. induction (Z.to_nat n); simpl; constructor;
    [unfold printable_char; lia | assumption].
Qed.

(** The decimal digits of a number. *)
Lemma printable_uint d : printable (lit (NilEmpty.string_of_uint d)).
Proof.
  induction d; simpl; constructor; try exact IHd; unfold printable_char; cbn; lia.
Qed.

Lemma printable_str_int n : printable (py_str_int n).
Proof.
  unfold py_str_int, NilZero.string_of_int, NilZero.string_of_uint.
  destruct (Z.to_int n) as [d|d].
  - destruct d; first [printable_lit | apply printable_uint].
  - change (printable (lit "-" ++ lit match d with
                                      | Nil => "0"
                                      | _ => NilEmpty.string_of_uint d
                                      end)).
    apply printable_app; [printable_lit|].
    destruct d; first [printable_lit | apply printable_uint].
Qed.

Create HintDb texts.

#[local] Hint Resolve printable_nil printable_app printable_firstn printable_skipn
  printable_zeros printable_str_int : texts.
#[local] Hint Extern 1 (printable (lit _)) => printable_lit : texts.

Lemma land_15_lt n : (N.land n 15 < 16)%N.
Proof.
  change 15%N with (N.ones 4). rewrite N.land_ones.
  apply N.mod_lt. discriminate.
Qed.

Lemma printable_hex_digit n : (n < 16)%N -> printable_char (hex_digit n).
Proof.
  intros H. unfold hex_digit, printable_char.
  destruct (N.ltb_spec n 10); lia.
Qed.

Lemma printable_hex4 n : printable (hex4 n).
Proof.
  unfold hex4. repeat constructor; apply printable_hex_digit, land_15_lt.
Qed.

Lemma printable_backslash_u n : printable (backslash_u n).
Proof. unfold backslash_u. auto using printable_hex4 with texts. Qed.

Lemma printable_short_escape c e : short_escape c = Some e -> printable e.
Proof.
  unfold short_escape.
  repeat match goal with
         | |- context [if ?b then _ else _] => destruct b
         end; intros [= <-]; printable_lit.
Qed.

(** With [ensure_ascii] every character is written in printable ASCII. *)
Lemma printable_escape_ascii c : printable (escape_ascii c).
Proof.
  unfold escape_ascii. destruct (short_escape c) as [e|] eqn:He.
  - eapply printable_short_escape; eassumption.
  - destruct ((32 <=? c)%N && (c <=? 126)%N) eqn:Hc.
    + apply andb_prop in Hc as [H1 H2]. apply N.leb_le in H1, H2.
      constructor; [split; assumption | constructor].
    + destruct (c <? 65536)%N; auto using printable_backslash_u with texts.
Qed.

Lemma printable_encode_basestring s : printable (encode_basestring true s).
Proof.
  unfold encode_basestring, DQUOTE.
  apply printable_app; [printable_lit|].
  apply printable_app; [|printable_lit].
  apply printable_flat_map, printable_escape_ascii.
Qed.

Lemma printable_format_short ds decpt :
  printable ds -> printable (format_short ds decpt).
Proof.
  intros Hds. unfold format_short.
  pose proof (printable_skipn 1 ds Hds) as Hfrac.
  repeat match goal with
         | |- context [if ?b then _ else _] => destruct b
         end;
    destruct (skipn 1 ds); auto 12 with texts.
Qed.

Lemma printable_float_repr x : printable (float_repr x).
Proof.
  destruct x as [s|s| |s m e]; simpl; try (destruct s; printable_lit); try printable_lit.
  unfold shortest_digits.
  destruct (fraction_of m e) as [n d].
  destruct (shortest_from _ _ _ _ _) as [c q].
  destruct (strip_zeros _ _ _) as [c' q'].
  destruct s; auto using printable_format_short with texts.
Qed.

Lemma printable_floatstr x : printable (floatstr x).
Proof.
  destruct x as [s|s| |s m e]; unfold floatstr;
    try apply printable_float_repr; try (destruct s; printable_lit); printable_lit.
Qed.

Lemma printable_json_value v : printable (json_value true v).
Proof.
  destruct v as [s|x|b]; simpl.
  - apply printable_encode_basestring.
  - apply printable_floatstr.
  - destruct b; printable_lit.
Qed.

(** The text [json.dumps] returns is printable ASCII. *)
Lemma printable_json_dumps d : printable (json_dumps d).
Proof.
  unfold json_dumps, json_dumps_with.
  apply printable_app; [printable_lit|].
  apply printable_app; [|printable_lit].
  apply printable_join; [printable_lit|].
  apply Forall_forall. intros x Hx. apply in_map_iff in Hx as [kv [<- _]].
  unfold json_item.
  auto using printable_encode_basestring, printable_json_value with texts.
Qed.

Lemma ascii_of_printable s : printable s -> Forall (fun c => (c < 128)%N) s.
Proof.
  intros H. eapply Forall_impl; [|exact H]. unfold printable_char. simpl. lia.
Qed.

(** Encoding a text of ASCII characters gives the same octets. *)
Lemma utf8_encode_ascii s :
  Forall (fun c => (c < 128)%N) s -> utf8_encode s = Some s.
Proof.
  induction 1 as [|c s Hc Hs IH]; simpl.
  - reflexivity.
  - rewrite IH. unfold utf8_encode_char.
    apply N.ltb_lt in Hc. rewrite Hc. reflexivity.
Qed.

Lemma utf8_encode_printable s : printable s -> utf8_encode s = Some s.
Proof. intros H. apply utf8_encode_ascii, ascii_of_printable, H. Qed.




Lemma no_cr_printable s : printable s -> ~ In 13%N s.
Proof.
  unfold printable. rewrite Forall_forall. intros H Hin.
  apply H in Hin. unfold printable_char in Hin. lia.
Qed.

(** ** The request handler *)

Lemma printable_result_of cfg d b : printable (result_of cfg d b).
Proof. apply printable_json_dumps. Qed.

Lemma ascii_response_text result :
  printable result -> Forall (fun c => (c < 128)%N) (response_text result).
Proof.
  intros H. unfold response_text.
  repeat (apply Forall_app; split);
    try (apply ascii_of_printable; first [exact H | apply printable_str_int | printable_lit]);
    repeat constructor.
Qed.

Lemma encode_response cfg d b :
  encode (response_text (result_of cfg d b)) = ret (response_text (result_of cfg d b)).
Proof.
  unfold encode.
  rewrite utf8_encode_ascii by apply ascii_response_text, printable_result_of.
  reflexivity.
Qed.

Section HandlerRuns.

Variable cfg : config.
Variable env : request_env.

Let c := fst (incoming env).
Let request_ip := fst (snd (incoming env)).

(** The [try] block once [accept] has returned: it runs its steps up to the
    first call that fails. *)
Lemma main_loop_body_run t0 :
  fault env AtAccept = None ->
  main_loop_body cfg env (mk_handler_state t0 None) =
    let '(t, r) :=
      run_steps (fault env) (body_steps c request_ip (response_of cfg env)) in
    (match r with Some e => Raise e | None => Return tt end,
     mk_handler_state (t0 ++ t) (Some c)).
Proof.
  intros Hacc.
  unfold main_loop_body, get_soil_data, at_site, bind, accept, read_u16,
    bind_client, load_client, out, emit, ret, raise.
  rewrite Hacc. cbn [trace client fst snd run_steps body_steps].
  destruct (fault env AtPrintRequest); [rewrite app_nil_r; reflexivity|].
  destruct (fault env AtReadADC); [reflexivity|].
  cbn [fst snd]. fold (response_of cfg env).
  unfold response_of at 1. rewrite encode_response. fold (response_of cfg env).
  unfold ret. cbn [trace client].
  destruct (fault env AtSend); [reflexivity|].
  destruct (fault env AtPrintSent); cbn [trace client]; [rewrite <- !app_assoc; reflexivity|].
  destruct (fault env AtSleep); cbn [trace client]; [rewrite <- !app_assoc; reflexivity|].
  destruct (fault env AtClose); cbn [trace client]; rewrite <- !app_assoc; reflexivity.
Qed.

(** The [except] clause, entered with [client] bound. *)
Lemma main_loop_handler_run err t0 :
  main_loop_handler env err (mk_handler_state t0 (Some c)) =
    match fault env AtHandlerClose, fault env AtHandlerPrint with
    | Some e, _ => (Raise e, mk_handler_state t0 (Some c))
    | None, Some e => (Raise e, mk_handler_state (t0 ++ [EClose c]) (Some c))
    | None, None =>
        (Return tt,
         mk_handler_state
           (t0 ++ [EClose c; EPrint (lit "Connection closed: " ++ exn_str err)])
           (Some c))
    end.
Proof.
  unfold main_loop_handler, at_site, bind, load_client, out, emit, raise.
  cbn [trace client].
  destruct (fault env AtHandlerClose); [reflexivity|].
  destruct (fault env AtHandlerPrint); cbn [trace client]; [reflexivity|].
  rewrite <- app_assoc. reflexivity.
Qed.

(** The [except] clause, entered with [client] unbound: its first
    statement raises. *)
Lemma main_loop_handler_unbound err t0 :
  exists e', exn_type e' = UnboundLocalError /\
    main_loop_handler env err (mk_handler_state t0 None)
      = (Raise e', mk_handler_state t0 None).
Proof.
  eexists. split; [|reflexivity]. reflexivity.
Qed.

(** [main_loop] when [accept] fails: the failure reaches the [except]
    clause before [client] is bound. *)
Lemma main_loop_accept_fails s e :
  fault env AtAccept = Some e -> is_Exception e = true ->
  exists e', exn_type e' = UnboundLocalError /\
    main_loop cfg env s = (Raise e', mk_handler_state (trace s) None).
Proof.
  intros Hacc Hexc.
  destruct (main_loop_handler_unbound e (trace s)) as [e' [Hty Hrun]].
  exists e'. split; [exact Hty|].
  assert (Hbody : forall st, main_loop_body cfg env st = (Raise e, st)).
  { intros st. unfold main_loop_body, at_site. rewrite Hacc. reflexivity. }
  unfold main_loop, enter, bind, try_except.
  rewrite Hbody, Hexc. exact Hrun.
Qed.

(** [main_loop] when [accept] returns. *)
Lemma main_loop_accept_ok s :
  fault env AtAccept = None ->
  main_loop cfg env s =
    let '(t, r) :=
      run_steps (fault env) (body_steps c request_ip (response_of cfg env)) in
    match r with
    | None => (Return tt, mk_handler_state (trace s ++ t) (Some c))
    | Some e =>
        if is_Exception e
        then main_loop_handler env e (mk_handler_state (trace s ++ t) (Some c))
        else (Raise e, mk_handler_state (trace s ++ t) (Some c))
    end.
Proof.
  intros Hacc.
  unfold main_loop, enter, bind, try_except.
  rewrite (main_loop_body_run (trace s) Hacc).
  destruct (run_steps _ _) as [t [e|]]; reflexivity.
Qed.

End HandlerRuns.

(** *** What the steps of the [try] block leave on the trace *)

(** Case analysis on every call that may fail. *)
Ltac case_faults f :=
  repeat match goal with
         | |- context [f ?p] => destruct (f p)
         end.

Section Steps.

Variable f : site -> option exn.
Variable c : socket.
Variable ip : str.
Variable response : bytes.

Let steps := body_steps c ip response.

(** All steps completed: the trace ends with the close. *)
Lemma run_steps_completed t :
  run_steps f steps = (t, None) ->
  exists t', t = t' ++ [EClose c] /\ sent t' = [response] /\ closed t' = [].
Proof.
  unfold steps, body_steps. cbn [run_steps].
  case_faults f; try discriminate.
  intros [= <-].
  exists [ EPrint (lit "Request received from " ++ ip ++ lit ".");
           ESend c response;
           EPrint (lit "Sent to " ++ ip ++ lit ": " ++ bytes_repr response);
           ESleep 1 ].
  repeat split.
Qed.

(** Whatever happens, at most the one response is sent, and nothing is
    closed before the last step. *)
Lemma run_steps_sent t r :
  run_steps f steps = (t, r) -> sent t = [] \/ sent t = [response].
Proof.
  unfold steps, body_steps. cbn [run_steps].
  case_faults f; intros [= <- <-]; cbn; auto.
Qed.

Lemma run_steps_failed_not_closed t e :
  run_steps f steps = (t, Some e) -> closed t = [].
Proof.
  unfold steps, body_steps. cbn [run_steps].
  case_faults f; intros [= <- <-]; reflexivity.
Qed.

(** The steps depend on the connection only through the events they name:
    what is sent does not. *)
Lemma run_steps_sent_indep c' ip' :
  sent (fst (run_steps f (body_steps c' ip' response))) = sent (fst (run_steps f steps)).
Proof.
  unfold steps, body_steps. cbn [run_steps].
  case_faults f; reflexivity.
Qed.

End Steps.

Lemma sent_app t u : sent (t ++ u) = sent t ++ sent u.
Proof. unfold sent. apply flat_map_app. Qed.

Lemma closed_app t u : closed (t ++ u) = closed t ++ closed u.
Proof. unfold closed. apply flat_map_app. Qed.

Lemma printed_app t u : printed (t ++ u) = printed t ++ printed u.
Proof. unfold printed. apply flat_map_app. Qed.

(** What a round sends, whatever fails. *)
Lemma main_loop_sent cfg env s :
  sent (trace (snd (main_loop cfg env s))) =
    sent (trace s) ++
    match fault env AtAccept with
    | Some _ => []
    | None =>
        sent (fst (run_steps (fault env)
                     (body_steps (fst (incoming env)) (fst (snd (incoming env)))
                        (response_of cfg env))))
    end.
Proof.
  destruct (fault env AtAccept) as [e|] eqn:Hacc.
  - rewrite app_nil_r. destruct (is_Exception e) eqn:Hexc.
    + destruct (main_loop_accept_fails cfg env s e Hacc Hexc) as [e' [_ ->]].
      reflexivity.
    + unfold main_loop, enter, bind, try_except.
      assert (Hbody : forall st, main_loop_body cfg env st = (Raise e, st)).
      { intros st. unfold main_loop_body, at_site. rewrite Hacc. reflexivity. }
      rewrite Hbody, Hexc. reflexivity.
  - rewrite (main_loop_accept_ok cfg env s Hacc).
    destruct (run_steps _ _) as [t [e|]]; cbn [fst snd trace].
    + destruct (is_Exception e); cbn [fst snd trace].
      * rewrite main_loop_handler_run.
        destruct (fault env AtHandlerClose); [|destruct (fault env AtHandlerPrint)];
          cbn [snd trace]; rewrite ?sent_app; cbn; rewrite ?app_nil_r; reflexivity.
      * apply sent_app.
    + apply sent_app.
Qed.

Lemma serve_cons cfg env rest s :
  serve cfg (env :: rest) s =
    match main_loop cfg env s with
    | (Return _, s') => serve cfg rest s'
    | (Raise e, s') => (Raise e, s')
    end.
Proof. reflexivity. Qed.

(** C1. The claim: [main_loop] never raises, whatever fails while accepting,
    reading the sensor, serializing or writing.  The code at a failing
    [listener.accept()]: the [except] clause calls [client.close()] on a
    local that was never bound, so [main_loop] raises [UnboundLocalError];
    nothing is closed, nothing is logged, and the serving loop of [main]
    ends instead of going on to the next round. *)
Theorem main_loop_raises_when_accept_fails :
  forall cfg c a raw rest,
    let env := mk_env (fault_at AtAccept (mk_exn OSError (lit "[Errno 103] ECONNABORTED")))
                 (c, a) raw in
    exists e,
      exn_type e = UnboundLocalError /\
      main_loop cfg env handler_init = (Raise e, handler_init) /\
      serve cfg (env :: rest) handler_init = (Raise e, handler_init).
Proof.
  intros cfg c a raw rest env.
  destruct (main_loop_accept_fails cfg env handler_init
              (mk_exn OSError (lit "[Errno 103] ECONNABORTED")) eq_refl eq_refl)
    as [e [Hty Hrun]].
  exists e. split; [exact Hty|]. split; [exact Hrun|].
  rewrite serve_cons, Hrun. reflexivity.
Qed.

(** C10, amended. Once [accept] has bound [client]: provided what fails
    raises an [Exception] and the two calls of the [except] clause themselves
    complete, [main_loop] returns normally and the serving loop goes on; when
    the [try] block raised [e], the trace ends with the close of the client
    and the line "Connection closed: e", and the client is closed nowhere
    before; when it did not raise, the trace ends with the close.  When
    [accept] itself fails there is no such guarantee: [main_loop] raises
    [UnboundLocalError] and leaves the trace as it was. *)
Theorem main_loop_closes_and_continues :
  forall cfg env s,
    (forall p e, fault env p = Some e -> is_Exception e = true) ->
    fault env AtHandlerClose = None ->
    fault env AtHandlerPrint = None ->
    let c := fst (incoming env) in
    let r := main_loop cfg env s in
    let body := main_loop_body cfg env (mk_handler_state (trace s) None) in
    (fault env AtAccept = None ->
       fst r = Return tt /\
       (forall rest, serve cfg (env :: rest) s = serve cfg rest (snd r)) /\
       (forall e, fst body = Raise e ->
          exists t, closed t = [] /\
            trace (snd r) =
              trace s ++ t ++ [EClose c; EPrint (lit "Connection closed: " ++ exn_str e)]) /\
       (fst body = Return tt ->
          exists t, closed t = [] /\ trace (snd r) = trace s ++ t ++ [EClose c]))
    /\
    (forall e, fault env AtAccept = Some e ->
       exists e', exn_type e' = UnboundLocalError /\
         r = (Raise e', mk_handler_state (trace s) None)).
Proof.
  intros cfg env s Hexc Hclose Hprint c r body. split.
  - intros Hacc.
    assert (Hr : r = main_loop cfg env s) by reflexivity.
    assert (Hb : body = main_loop_body cfg env (mk_handler_state (trace s) None))
      by reflexivity.
    rewrite (main_loop_accept_ok cfg env s Hacc) in Hr.
    rewrite (main_loop_body_run cfg env (trace s) Hacc) in Hb.
    fold c in Hr, Hb.
    destruct (run_steps (fault env) _) as [t [e|]] eqn:Hsteps.
    + assert (He : is_Exception e = true).
      { clear - Hsteps Hexc. revert Hsteps. unfold body_steps. cbn [run_steps].
        repeat match goal with
               | |- context [fault env ?p] =>
                   let H := fresh in destruct (fault env p) eqn:H
               end; intros [= <- <-] || intros [=];
          eapply Hexc; eassumption. }
      rewrite He, main_loop_handler_run, Hclose, Hprint in Hr. fold c in Hr.
      assert (Hfst : fst r = Return tt) by (rewrite Hr; reflexivity).
      split; [exact Hfst|]. split; [|split].
      * intros rest. rewrite serve_cons. fold r.
        destruct r as [[[]|e0] s']; [reflexivity | discriminate].
      * intros e0 He0. rewrite Hb in He0. injection He0 as <-.
        exists t. split; [eapply run_steps_failed_not_closed; eassumption|].
        rewrite Hr. cbn [snd trace]. rewrite app_assoc. reflexivity.
      * rewrite Hb. discriminate.
    + assert (Hfst : fst r = Return tt) by (rewrite Hr; reflexivity).
      split; [exact Hfst|]. split; [|split].
      * intros rest. rewrite serve_cons. fold r.
        destruct r as [[[]|e0] s']; [reflexivity | discriminate].
      * rewrite Hb. discriminate.
      * intros _. apply run_steps_completed in Hsteps as [t' [-> [_ Hcl]]].
        exists t'. split; [exact Hcl|]. rewrite Hr. reflexivity.
  - intros e Hacc. apply (main_loop_accept_fails cfg env s e Hacc).
    eapply Hexc; eassumption.
Qed.

(** A round in which the failing calls are [OSError]s at the send. *)
Lemma main_loop_closes_and_continues_witness :
  let env := mk_env (fault_at AtSend (mk_exn OSError (lit "[Errno 104] ECONNRESET")))
               (mk_socket 1 (lit "GET / HTTP/1.1"), (lit "192.168.1.5", 51234)) 20000 in
  (forall p e, fault env p = Some e -> is_Exception e = true) /\
  fault env AtHandlerClose = None /\
  fault env AtHandlerPrint = None /\
  fault env AtAccept = None /\
  fst (main_loop source_config env handler_init) = Return tt.
Proof.
  intros env.
  assert (Hexc : forall p e, fault env p = Some e -> is_Exception e = true).
  { intros p e. destruct p; simpl; intros H; inversion H; reflexivity. }
  split; [exact Hexc|]. split; [reflexivity|]. split; [reflexivity|].
  split; [reflexivity|].
  exact (proj1 (proj1 (main_loop_closes_and_continues source_config env handler_init
                         Hexc eq_refl eq_refl) eq_refl)).
Defined.

(** C10 as it is stated, for every exception raised once the client is
    bound, does not hold; three rounds show it, each with [accept]
    succeeding.  A [KeyboardInterrupt] during the pause after the send is not
    an [Exception]: the [except] clause does not run, [main_loop] raises it
    and the client stays open.  An [OSError] at the send is caught, but when
    the [client.close()] of the clause fails in turn, [main_loop] raises that
    second error and the client stays open.  When the close of the clause
    succeeds and its [print] fails, the client is closed, nothing is logged
    and [main_loop] raises. *)
Lemma main_loop_closes_and_continues_counterexample :
  let conn := (mk_socket 1 (lit "GET / HTTP/1.1"), (lit "192.168.1.5", 51234)) in
  let reset := mk_exn OSError (lit "[Errno 104] ECONNRESET") in
  let interrupted :=
    mk_env (fault_at AtSleep (mk_exn KeyboardInterrupt [])) conn 20000 in
  let close_fails :=
    mk_env (fun p => match p with
                     | AtSend => Some reset
                     | AtHandlerClose => Some (mk_exn OSError (lit "[Errno 9] EBADF"))
                     | _ => None
                     end) conn 20000 in
  let log_fails :=
    mk_env (fun p => match p with
                     | AtSend => Some reset
                     | AtHandlerPrint => Some (mk_exn OSError (lit "[Errno 5] EIO"))
                     | _ => None
                     end) conn 20000 in
  let round env := main_loop source_config env handler_init in
  let body env :=
    main_loop_body source_config env (mk_handler_state [] None) in
  (fault interrupted AtAccept = None /\
   fst (body interrupted) = Raise (mk_exn KeyboardInterrupt []) /\
   fst (round interrupted) = Raise (mk_exn KeyboardInterrupt []) /\
   closed (trace (snd (round interrupted))) = [])
  /\
  (fault close_fails AtAccept = None /\
   fst (body close_fails) = Raise reset /\
   is_Exception reset = true /\
   fst (round close_fails) = Raise (mk_exn OSError (lit "[Errno 9] EBADF")) /\
   closed (trace (snd (round close_fails))) = [])
  /\
  (fault log_fails AtAccept = None /\
   fst (body log_fails) = Raise reset /\
   fst (round log_fails) = Raise (mk_exn OSError (lit "[Errno 5] EIO")) /\
   closed (trace (snd (round log_fails))) = [fst conn] /\
   printed (trace (snd (round log_fails)))
     = [lit "Request received from 192.168.1.5."]).
Proof. vm_compute. repeat split. Qed.

(** C8. The octets a round sends are, when it sends at all, exactly the
    status line [HTTP/1.1 200 OK], the [Content-Length] header, the
    [Content-Type: application/json] header, an empty line, the JSON text and
    a final line feed; a round in which no call fails sends them once.  The
    header value and the JSON text are printable ASCII, so the only line
    ends are the five bare line feeds: no carriage return occurs. *)
Theorem response_framing :
  forall cfg f c a raw s,
    let env := mk_env f (c, a) raw in
    let value := dryness_of raw in
    let result := result_of cfg value (fgt value (MAX_DRYNESS_PERCENTAGE cfg)) in
    let response :=
      lit "HTTP/1.1 200 OK" ++ LF
        ++ lit "Content-Length: " ++ py_str_int (py_len result) ++ LF
        ++ lit "Content-Type: application/json" ++ LF
        ++ LF
        ++ result ++ LF in
    (sent (trace (snd (main_loop cfg env s))) = sent (trace s) \/
     sent (trace (snd (main_loop cfg env s))) = sent (trace s) ++ [response]) /\
    sent (trace (snd (main_loop cfg (mk_env no_fault (c, a) raw) s)))
      = sent (trace s) ++ [response] /\
    printable (py_str_int (py_len result)) /\
    printable result /\
    ~ In 13%N response.
Proof.
  intros cfg f c a raw s env value result response.
  assert (Hres : printable result) by apply printable_result_of.
  assert (Hlen : printable (py_str_int (py_len result))) by apply printable_str_int.
  split; [|split; [|split; [exact Hlen | split; [exact Hres|]]]].
  - rewrite main_loop_sent.
    destruct (fault env AtAccept); [left; apply app_nil_r|].
    destruct (run_steps (fault env) _) as [t r] eqn:Hsteps. cbn [fst].
    apply run_steps_sent in Hsteps as [-> | ->].
    + left. apply app_nil_r.
    + right. reflexivity.
  - rewrite main_loop_sent. reflexivity.
  - unfold response. rewrite !in_app_iff.
    intros [H|[H|[H|[H|[H|[H|[H|[H|[H|H]]]]]]]]];
      try (revert H; apply no_cr_printable; first [exact Hres | exact Hlen | printable_lit]);
      destruct H as [H|[]]; discriminate.
Qed.

(** C9. Two rounds that differ in the accepted connection (what the client
    wrote, its address) and agree on the configuration, the sample and the
    calls that fail send the same octets: nothing of the connection enters
    the response. *)
Theorem response_independent_of_request :
  forall cfg f raw c1 a1 c2 a2 s,
    sent (trace (snd (main_loop cfg (mk_env f (c1, a1) raw) s)))
      = sent (trace (snd (main_loop cfg (mk_env f (c2, a2) raw) s))).
Proof.
  intros cfg f raw c1 a1 c2 a2 s.
  rewrite !main_loop_sent. cbn [fault incoming fst snd].
  destruct (f AtAccept); [reflexivity|].
  f_equal. apply run_steps_sent_indep.
Qed.

(** With the escapes of [json.dumps] as the model has it ([ensure_ascii]
    on): whatever the plant name, the threshold and the reading, the JSON
    text encodes to UTF-8, and the value of the [Content-Length] header in
    the encoded response is the number of octets of that encoding. *)
Lemma content_length_counts_octets :
  forall cfg dryness is_too_dry,
    let result := result_of cfg dryness is_too_dry in
    exists body : bytes,
      utf8_encode result = Some body /\
      utf8_encode (response_text result) =
        Some (lit "HTTP/1.1 200 OK" ++ LF
                ++ lit "Content-Length: " ++ py_str_int (py_len body) ++ LF
                ++ lit "Content-Type: application/json" ++ LF
                ++ LF
                ++ body ++ LF).
Proof.
  intros cfg dryness is_too_dry result.
  exists result. split.
  - apply utf8_encode_printable, printable_result_of.
  - apply utf8_encode_ascii, ascii_response_text, printable_result_of.
Qed.

(** The plant name "Cafe" with an acute accent on the e (U+00E9):
    [json.dumps] writes that character as the six characters of its escape,
    and the header counts them. *)
Example content_length_cafe :
  let cfg := mk_config [67; 97; 102; 233]%N (decimal 600 (-1)) [] [] 30 80 in
  let result := result_of cfg (decimal 305 (-1)) false in
  result = lit "{" ++ quoted "plant" ++ lit ": " ++ quoted "Caf\u00e9" ++ lit ", "
             ++ quoted "dryness_percent" ++ lit ": 30.5, "
             ++ quoted "max_allowable_dryness" ++ lit ": 60.0, "
             ++ quoted "is_plant_too_dry" ++ lit ": false}"
  /\ py_str_int (py_len result) = lit "105"
  /\ option_map py_len (utf8_encode result) = Some 105.
Proof. vm_compute. repeat split. Qed.

(** The equality of C2 rests on the escaping: were the text written with
    [ensure_ascii=False], the same name would give 100 characters and 101
    octets. *)
Remark content_length_without_escaping :
  let d := [ (lit "plant", PyStr [67; 97; 102; 233]%N);
             (lit "dryness_percent", PyFloat (decimal 305 (-1)));
             (lit "max_allowable_dryness", PyFloat (decimal 600 (-1)));
             (lit "is_plant_too_dry", PyBool false) ] in
  py_len (json_dumps_with false d) = 100 /\
  option_map py_len (utf8_encode (json_dumps_with false d)) = Some 101.
Proof. vm_compute. split; reflexivity. Qed.




(** ** The network bootstrap *)

Section Wifi.

Variable cfg : config.
Variable w : wlan.

(** The statements before the loop do not fail and do not ask the status. *)
Lemma wifi_start_run s :
  exists t,
    wifi_start cfg w s = (Return tt, mk_wifi_state (wifi_trace s ++ t) (status_calls s))
    /\ sleeps t = [].
Proof.
  eexists. split.
  - unfold wifi_start, wifi_emit, emit, bind. cbn [wifi_trace status_calls].
    rewrite <- !app_assoc. reflexivity.
  - reflexivity.
Qed.

(** The loop always ends, and normally. *)
Lemma wait_loop_returns n : forall s, fst (wait_loop w n s) = Return tt.
Proof.
  induction n as [|n IH]; intros s; [reflexivity|].
  cbn [wait_loop]. unfold bind, status, wifi_emit, emit, ret.
  cbn [wifi_trace status_calls].
  destruct (wlan_status w (status_calls s) <? 0); [reflexivity|].
  cbn [wifi_trace status_calls].
  destruct (3 <=? wlan_status w (S (status_calls s))); [reflexivity|].
  apply IH.
Qed.

(** While the driver reports a status of the connecting class the loop
    runs all its rounds, asking twice per round. *)
Lemma wait_loop_connecting n :
  (forall k, 0 <= wlan_status w k < 3) ->
  forall s,
    wait_loop w n s =
      (Return tt,
       mk_wifi_state (wifi_trace s ++ waiting_rounds n) (status_calls s + 2 * n)).
Proof.
  intros Hst. induction n as [|n IH]; intros s.
  - cbn. rewrite app_nil_r, Nat.add_0_r. destruct s; reflexivity.
  - cbn [wait_loop]. unfold bind, status, wifi_emit, emit, ret.
    cbn [wifi_trace status_calls].
    destruct (Z.ltb_spec (wlan_status w (status_calls s)) 0) as [H|_];
      [specialize (Hst (status_calls s)); lia|].
    cbn [wifi_trace status_calls].
    destruct (Z.leb_spec 3 (wlan_status w (S (status_calls s)))) as [H|_];
      [specialize (Hst (S (status_calls s))); lia|].
    rewrite IH. cbn [wifi_trace status_calls waiting_rounds].
    rewrite <- !app_assoc. f_equal. f_equal. lia.
Qed.

Lemma sleeps_waiting_rounds n : sleeps (waiting_rounds n) = repeat 1 n.
Proof. induction n as [|n IH]; [reflexivity|]. cbn. f_equal. exact IH. Qed.

Lemma printed_waiting_rounds n : printed (waiting_rounds n) = repeat WAITING n.
Proof. induction n as [|n IH]; [reflexivity|]. cbn. f_equal. exact IH. Qed.

End Wifi.

Lemma sleeps_app t u : sleeps (t ++ u) = sleeps t ++ sleeps u.
Proof. unfold sleeps. apply flat_map_app. Qed.

(** C3. If every status the driver reports is of the connecting class
    (0, 1 or 2), [connect_to_wifi] raises its [RuntimeError] after exactly
    [MAX_WIFI_CONNECTION_ATTEMPTS] rounds of the loop: that many times the
    waiting line followed by the one-second sleep, and nothing else after
    the start.  (The status is asked twice in each round and once after the
    loop.) *)
Theorem connect_to_wifi_retry_exhaustion :
  forall cfg w,
    (forall k, 0 <= wlan_status w k < 3) ->
    let n := Z.to_nat (MAX_WIFI_CONNECTION_ATTEMPTS cfg) in
    let r := connect_to_wifi cfg w wifi_init in
    fst r = Raise CONNECTION_FAILED /\
    wifi_trace (snd r)
      = wifi_trace (snd (wifi_start cfg w wifi_init)) ++ waiting_rounds n /\
    sleeps (wifi_trace (snd r)) = repeat 1 n /\
    status_calls (snd r) = (2 * n + 1)%nat.
Proof.
  intros cfg w Hst n r.
  destruct (wifi_start_run cfg w wifi_init) as [t [Hstart Hsl]].
  assert (Hr : r = (Raise CONNECTION_FAILED,
                    mk_wifi_state (t ++ waiting_rounds n) (2 * n + 1)%nat)).
  { unfold r, connect_to_wifi, bind. rewrite Hstart.
    fold n. rewrite (wait_loop_connecting w n Hst).
    unfold wifi_finish, bind, status. cbn [wifi_trace status_calls wifi_init app].
    destruct (Z.eqb_spec (wlan_status w (0 + 2 * n)) 3) as [H|_];
      [specialize (Hst (0 + 2 * n)%nat); lia|].
    cbn [negb]. unfold raise. f_equal. f_equal. lia. }
  rewrite Hr, Hstart. cbn [fst snd wifi_trace status_calls wifi_init app].
  repeat split.
  rewrite sleeps_app, Hsl, sleeps_waiting_rounds. reflexivity.
Qed.

Lemma connect_to_wifi_retry_exhaustion_witness :
  let w := mk_wlan [40; 205; 193; 0; 171; 18]%N (fun _ => 1)
             (lit "192.168.1.20", lit "255.255.255.0", lit "192.168.1.1", lit "8.8.8.8") in
  (forall k, 0 <= wlan_status w k < 3) /\
  fst (connect_to_wifi source_config w wifi_init) = Raise CONNECTION_FAILED /\
  sleeps (wifi_trace (snd (connect_to_wifi source_config w wifi_init))) = repeat 1 30%nat.
Proof.
  intros w.
  assert (Hst : forall k, 0 <= wlan_status w k < 3) by (intros k; simpl; lia).
  split; [exact Hst|].
  pose proof (connect_to_wifi_retry_exhaustion source_config w Hst) as H.
  split; [exact (proj1 H) | exact (proj1 (proj2 (proj2 H)))].
Defined.

(** C4. Whatever statuses the driver reports: the loop ends normally, and
    with [final] the status asked after it, [connect_to_wifi] returns the
    address of the interface configuration if and only if [final] is 3, and
    raises its [RuntimeError] in every other case. *)
Theorem connect_to_wifi_joined_or_fatal :
  forall cfg w,
    let loop := (wifi_start cfg w ;;
                 wait_loop w (Z.to_nat (MAX_WIFI_CONNECTION_ATTEMPTS cfg))) wifi_init in
    let final := wlan_status w (status_calls (snd loop)) in
    let ip_address := fst (fst (fst (wlan_ifconfig w))) in
    let r := connect_to_wifi cfg w wifi_init in
    fst loop = Return tt /\
    (fst r = Return ip_address <-> final = 3) /\
    (final <> 3 -> fst r = Raise CONNECTION_FAILED).
Proof.
  intros cfg w loop final ip_address r.
  assert (Hloop : fst loop = Return tt).
  { unfold loop, bind.
    destruct (wifi_start_run cfg w wifi_init) as [t [-> _]].
    apply wait_loop_returns. }
  assert (Hr : r = wifi_finish cfg w (snd loop)).
  { unfold r, connect_to_wifi.
    change (wifi_start cfg w;; wait_loop w (Z.to_nat (MAX_WIFI_CONNECTION_ATTEMPTS cfg));;
            wifi_finish cfg w)
      with (fun s => bind (wifi_start cfg w)
                       (fun _ => bind (wait_loop w (Z.to_nat (MAX_WIFI_CONNECTION_ATTEMPTS cfg)))
                                   (fun _ => wifi_finish cfg w)) s).
    cbv beta. unfold loop in *. unfold bind in *.
    destruct (wifi_start cfg w wifi_init) as [[[]|e] s1]; [|discriminate].
    destruct (wait_loop w _ s1) as [[[]|e] s2]; [reflexivity | discriminate]. }
  assert (Hfin : fst r = if final =? 3 then Return ip_address else Raise CONNECTION_FAILED).
  { rewrite Hr. unfold wifi_finish, bind, status. fold final.
    destruct (final =? 3); reflexivity. }
  split; [exact Hloop|]. rewrite Hfin.
  destruct (Z.eqb_spec final 3) as [H|H]; split.
  - split; intros _; [exact H | reflexivity].
  - intros Hne. contradiction.
  - split; [discriminate | intros Heq; contradiction].
  - intros _. reflexivity.
Qed.

(** ** The sensor reading *)

Lemma all_from_spec P depth :
  forall lo, all_from depth lo P = true ->
  forall r, lo <= r < lo + 2 ^ Z.of_nat depth -> P r = true.
Proof.
  induction depth as [|d IH]; intros lo H r Hr.
  - cbn in *. replace r with lo by lia. exact H.
  - cbn [all_from] in H. apply andb_prop in H as [H1 H2].
    rewrite Nat2Z.inj_succ, Z.pow_succ_r in Hr by lia.
    destruct (Z.lt_ge_cases r (lo + 2 ^ Z.of_nat d)) as [Hlt|Hge].
    + apply (IH lo H1). lia.
    + apply (IH _ H2). lia.
Qed.

Lemma div_eucl_pair n d : Z.div_eucl n d = (n / d, n mod d).
Proof. unfold Z.div, Z.modulo. destruct (Z.div_eucl n d); reflexivity. Qed.

Lemma round_scaled_by_shift m k ndigits :
  round_scaled m (Zneg k) ndigits = round_scaled_shift m k ndigits.
Proof.
  unfold round_scaled, round_scaled_shift, fraction_of, div_half_even.
  rewrite div_eucl_pair, Pos2Z.inj_pow.
  rewrite Z.shiftr_div_pow2, Z.land_ones by lia.
  reflexivity.
Qed.

Lemma tenths_unique r t :
  131070 * t <= 2000 * r + 65535 < 131070 * (t + 1) -> t = tenths r.
Proof.
  intros H. unfold tenths.
  apply (Z.div_unique _ _ t (2000 * r + 65535 - 131070 * t)); lia.
Qed.

(** Every 16-bit sample passes the check: evaluated sample by sample. *)
Lemma dryness_table : all_from 16 0 reading_check = true.
Proof. vm_cast_no_check (eq_refl true). Qed.

(** On every 16-bit sample the float computation
    [round(raw / 65535 * 100, 1)] gives the float nearest to the number of
    tenths that exact arithmetic gives. *)
Lemma dryness_exact r :
  0 <= r <= 65535 -> dryness_of r = decimal (tenths r) (-1).
Proof.
  intros Hr.
  assert (H : reading_check r = true).
  { apply (all_from_spec _ 16 0 dryness_table).
    change (2 ^ Z.of_nat 16) with 65536. lia. }
  unfold reading_check in H. unfold dryness_of.
  destruct (fmul_int (int_truediv r 65535) 100) as [[|]|[|]| |[|] m [|k|k]];
    try discriminate.
  - apply Z.eqb_eq in H. subst r. reflexivity.
  - apply andb_prop in H as [H1 H2]. apply Z.leb_le in H1. apply Z.ltb_lt in H2.
    cbn [py_round]. rewrite round_scaled_by_shift.
    set (t := round_scaled_shift m k 1) in *.
    assert (Ht : t = tenths r) by (apply tenths_unique; lia).
    rewrite <- Ht.
    assert (H0 : 0 <= t).
    { rewrite Ht. unfold tenths. apply Z.div_pos; lia. }
    unfold decimal.
    replace (t <? 0) with false by (symmetry; apply Z.ltb_ge; exact H0).
    rewrite Z.abs_eq by exact H0. reflexivity.
Qed.

Lemma tenths_range r : 0 <= r <= 65535 -> 0 <= tenths r <= 1000.
Proof.
  intros Hr. unfold tenths. split.
  - apply Z.div_pos; lia.
  - apply Z.lt_succ_r. apply Z.div_lt_upper_bound; lia.
Qed.

(** The floats of 0.0, 0.1, ..., 100.0 lie between 0.0 and 100.0. *)
Lemma tenths_table :
  all_from 10 0
    (fun t => (1000 <? t)
              || fle (decimal 0 (-1)) (decimal t (-1))
                 && fle (decimal t (-1)) (decimal 1000 (-1))) = true.
Proof. vm_cast_no_check (eq_refl true). Qed.

Lemma dryness_range r :
  0 <= r <= 65535 ->
  fle (decimal 0 (-1)) (dryness_of r) = true /\
  fle (dryness_of r) (decimal 1000 (-1)) = true.
Proof.
  intros Hr. rewrite (dryness_exact r Hr).
  pose proof (tenths_range r Hr) as Ht.
  apply andb_prop.
  assert (H : 0 <= tenths r < 0 + 2 ^ Z.of_nat 10)
    by (change (2 ^ Z.of_nat 10) with 1024; lia).
  apply (all_from_spec _ 10 0 tenths_table) in H.
  apply orb_prop in H as [H|H]; [apply Z.ltb_lt in H; lia | exact H].
Qed.

Lemma get_soil_data_run cfg env s :
  fault env AtReadADC = None ->
  get_soil_data cfg env s =
    (Return (dryness_of (adc_value env),
             fgt (dryness_of (adc_value env)) (MAX_DRYNESS_PERCENTAGE cfg)), s).
Proof.
  intros H. unfold get_soil_data, at_site, bind. rewrite H. reflexivity.
Qed.

(** Zero is not above a positive float. *)
Lemma zero_not_above threshold :
  fgt threshold (decimal 0 (-1)) = true -> fgt (decimal 0 (-1)) threshold = false.
Proof.
  destruct threshold as [s|s| |s m e]; try discriminate;
    destruct s; try discriminate; reflexivity.
Qed.

(** Among the floats of 0.0, 0.1, ..., 100.0 only that of 60.0 equals
    60.0. *)
Lemma sixty_table :
  all_from 10 0
    (fun t => (1000 <? t) || (t =? 600)
              || negb (SFeqb (decimal t (-1)) (decimal 600 (-1)))) = true.
Proof. vm_cast_no_check (eq_refl true). Qed.

(** The samples that read exactly 60.0 are those from 39289 to 39353. *)
Lemma samples_reading_sixty r :
  0 <= r <= 65535 ->
  (dryness_of r = decimal 600 (-1) <-> 39289 <= r <= 39353).
Proof.
  intros Hr. rewrite (dryness_exact r Hr).
  pose proof (tenths_range r Hr) as Ht.
  assert (Hdm : 2000 * r + 65535
                = 131070 * tenths r + (2000 * r + 65535) mod 131070)
    by (apply Z.div_mod; lia).
  pose proof (Z.mod_pos_bound (2000 * r + 65535) 131070 eq_refl) as Hm.
  split.
  - intros Heq.
    assert (H : 0 <= tenths r < 0 + 2 ^ Z.of_nat 10)
      by (change (2 ^ Z.of_nat 10) with 1024; lia).
    apply (all_from_spec _ 10 0 sixty_table) in H.
    rewrite Heq in H.
    apply orb_prop in H as [H|H]; [apply orb_prop in H as [H|H]|].
    + apply Z.ltb_lt in H. lia.
    + apply Z.eqb_eq in H. lia.
    + discriminate H.
  - intros Hrange. replace (tenths r) with 600 by lia. reflexivity.
Qed.

(** C6. For a sample [r] in [0, 65535] the sensor reader returns the pair
    [(percent, percent > threshold)] with [percent = dryness_of r], a
    function of [r] alone, so the pair is a function of [r] and the
    threshold; [percent] is the float of [tenths r / 10] and lies between
    0.0 and 100.0.  At [r = 0] it is 0.0, not too dry for a positive
    threshold; at [r = 65535] it is 100.0, too dry for a threshold below
    100.0. *)
Theorem soil_reading_range_and_boundaries :
  forall cfg env s r,
    adc_value env = r ->
    fault env AtReadADC = None ->
    0 <= r <= 65535 ->
    let percent := dryness_of r in
    let threshold := MAX_DRYNESS_PERCENTAGE cfg in
    get_soil_data cfg env s = (Return (percent, fgt percent threshold), s) /\
    percent = decimal (tenths r) (-1) /\
    fle (decimal 0 (-1)) percent = true /\
    fle percent (decimal 1000 (-1)) = true /\
    (r = 0 ->
       percent = decimal 0 (-1) /\
       (fgt threshold (decimal 0 (-1)) = true -> fgt percent threshold = false)) /\
    (r = 65535 ->
       percent = decimal 1000 (-1) /\
       (fgt (decimal 1000 (-1)) threshold = true -> fgt percent threshold = true)).
Proof.
  intros cfg env s r Hadc Hfault Hr percent threshold.
  split; [|split; [|split; [|split; [|split]]]].
  - rewrite (get_soil_data_run cfg env s Hfault), Hadc. reflexivity.
  - apply dryness_exact, Hr.
  - apply dryness_range, Hr.
  - apply dryness_range, Hr.
  - intros ->. split; [vm_compute; reflexivity|].
    apply zero_not_above.
  - intros ->. split; [vm_compute; reflexivity|].
    intros H. exact H.
Qed.

Lemma soil_reading_range_and_boundaries_witness :
  let env := mk_env no_fault (mk_socket 1 [], (lit "192.168.1.5", 51234)) 65535 in
  adc_value env = 65535 /\
  fault env AtReadADC = None /\
  0 <= 65535 <= 65535 /\
  get_soil_data source_config env handler_init
    = (Return (dryness_of 65535,
               fgt (dryness_of 65535) (MAX_DRYNESS_PERCENTAGE source_config)),
       handler_init).
Proof.
  intros env.
  assert (Hr : 0 <= 65535 <= 65535) by lia.
  split; [reflexivity|]. split; [reflexivity|]. split; [exact Hr|].
  exact (proj1 (soil_reading_range_and_boundaries source_config env handler_init 65535
                  eq_refl eq_refl Hr)).
Defined.

(** C7. With the threshold 60.0, a sample whose percentage is exactly 60.0
    is reported as not too dry: the comparison is strict. *)
Theorem threshold_comparison_is_strict :
  forall cfg env s r,
    MAX_DRYNESS_PERCENTAGE cfg = decimal 600 (-1) ->
    adc_value env = r ->
    fault env AtReadADC = None ->
    dryness_of r = decimal 600 (-1) ->
    get_soil_data cfg env s = (Return (decimal 600 (-1), false), s).
Proof.
  intros cfg env s r Hthr Hadc Hfault Hpct.
  rewrite (get_soil_data_run cfg env s Hfault), Hadc, Hthr, Hpct.
  reflexivity.
Qed.

(** The sample 39300 reads 60.0. *)
Lemma threshold_comparison_is_strict_witness :
  let env := mk_env no_fault (mk_socket 1 [], (lit "192.168.1.5", 51234)) 39300 in
  MAX_DRYNESS_PERCENTAGE source_config = decimal 600 (-1) /\
  dryness_of 39300 = decimal 600 (-1) /\
  get_soil_data source_config env handler_init
    = (Return (decimal 600 (-1), false), handler_init).
Proof.
  intros env.
  assert (Hpct : dryness_of 39300 = decimal 600 (-1)) by (vm_compute; reflexivity).
  split; [reflexivity|]. split; [exact Hpct|].
  exact (threshold_comparison_is_strict source_config env handler_init 39300
           eq_refl eq_refl eq_refl Hpct).
Defined.

(** The samples around the threshold: 39353 is the last that reads 60.0,
    39354 reads 60.1 and is too dry. *)
Example soil_data_around_threshold :
  forall c a s,
    get_soil_data source_config (mk_env no_fault (c, a) 39353) s
      = (Return (decimal 600 (-1), false), s) /\
    get_soil_data source_config (mk_env no_fault (c, a) 39354) s
      = (Return (decimal 601 (-1), true), s).
Proof. intros c a s. split; vm_compute; reflexivity. Qed.

(** ** More on the network bootstrap *)

Section WifiRuns.

Variable cfg : config.
Variable w : wlan.

Let n := Z.to_nat (MAX_WIFI_CONNECTION_ATTEMPTS cfg).

(** The statements after the loop, by the status they read. *)
Lemma wifi_finish_run s :
  wifi_finish cfg w s =
    if wlan_status w (status_calls s) =? 3
    then (Return (fst (fst (fst (wlan_ifconfig w)))),
          mk_wifi_state
            (wifi_trace s
               ++ [EPrint (lit "Connected to WiFi network " ++ SSID cfg ++ lit "!");
                   EPrint (lit "IP Address: " ++ fst (fst (fst (wlan_ifconfig w))))])
            (S (status_calls s)))
    else (Raise CONNECTION_FAILED,
          mk_wifi_state (wifi_trace s) (S (status_calls s))).
Proof.
  unfold wifi_finish, bind, status, wifi_emit, emit, raise, ret.
  destruct (wlan_status w (status_calls s) =? 3); cbn [negb wifi_trace status_calls].
  - rewrite <- app_assoc. reflexivity.
  - reflexivity.
Qed.

(** [connect_to_wifi] is its start, the loop and the check after it. *)
Lemma connect_to_wifi_run t0 t c :
  wifi_start cfg w wifi_init = (Return tt, mk_wifi_state t0 0) ->
  wait_loop w n (mk_wifi_state t0 0) = (Return tt, mk_wifi_state t c) ->
  connect_to_wifi cfg w wifi_init = wifi_finish cfg w (mk_wifi_state t c).
Proof.
  intros Hstart Hloop. unfold connect_to_wifi, bind. fold n.
  rewrite Hstart, Hloop. reflexivity.
Qed.

Lemma wifi_start_init :
  exists t0,
    wifi_start cfg w wifi_init = (Return tt, mk_wifi_state t0 0) /\ sleeps t0 = [].
Proof.
  destruct (wifi_start_run cfg w wifi_init) as [t [H Hs]].
  exists t. split; [exact H | exact Hs].
Qed.

End WifiRuns.

Section WaitLoop.

Variable w : wlan.

(** One round of the loop, by what the driver answers. *)
Lemma wait_loop_round k s :
  wait_loop w (S k) s =
    if wlan_status w (status_calls s) <? 0
    then (Return tt, mk_wifi_state (wifi_trace s) (S (status_calls s)))
    else if 3 <=? wlan_status w (S (status_calls s))
    then (Return tt, mk_wifi_state (wifi_trace s) (S (S (status_calls s))))
    else wait_loop w k
           (mk_wifi_state (wifi_trace s ++ [EPrint WAITING; ESleep 1])
              (S (S (status_calls s)))).
Proof.
  cbn [wait_loop]. unfold bind, status, wifi_emit, emit, ret.
  cbn [wifi_trace status_calls].
  destruct (wlan_status w (status_calls s) <? 0); [reflexivity|].
  cbn [wifi_trace status_calls].
  destruct (3 <=? wlan_status w (S (status_calls s))); [reflexivity|].
  rewrite <- app_assoc. reflexivity.
Qed.

(** Whatever the driver answers, the loop waits at most [max_wait] rounds
    and asks at most twice per round. *)
Lemma wait_loop_bounded k :
  forall s, exists i c,
    (i <= k)%nat /\ (status_calls s <= c <= status_calls s + 2 * k)%nat /\
    wait_loop w k s = (Return tt, mk_wifi_state (wifi_trace s ++ waiting_rounds i) c).
Proof.
  induction k as [|k IH]; intros s.
  - exists 0%nat, (status_calls s). repeat split; try lia.
    cbn. rewrite app_nil_r. destruct s; reflexivity.
  - rewrite wait_loop_round.
    destruct (wlan_status w (status_calls s) <? 0).
    { exists 0%nat, (S (status_calls s)). repeat split; try lia.
      cbn. rewrite app_nil_r. reflexivity. }
    destruct (3 <=? wlan_status w (S (status_calls s))).
    { exists 0%nat, (S (S (status_calls s))). repeat split; try lia.
      cbn. rewrite app_nil_r. reflexivity. }
    destruct (IH (mk_wifi_state (wifi_trace s ++ [EPrint WAITING; ESleep 1])
                    (S (S (status_calls s))))) as [i [c [Hi [Hc Hrun]]]].
    cbn [wifi_trace status_calls] in *.
    exists (S i), c. repeat split; try lia.
    rewrite Hrun, <- app_assoc. reflexivity.
Qed.

(** The link comes up at the [j]-th answer: connecting before, joined from
    then on.  The loop waits until the round that sees it. *)
Lemma wait_loop_until_joined j :
  (forall k, (k < j)%nat -> 0 <= wlan_status w k < 3) ->
  (forall k, (j <= k)%nat -> wlan_status w k = 3) ->
  forall k a s,
    status_calls s = (2 * a)%nat -> (2 * a <= j)%nat ->
    exists c,
      wait_loop w k s =
        (Return tt,
         mk_wifi_state (wifi_trace s ++ waiting_rounds (Nat.min k (j / 2 - a))) c)
      /\ (c <= 2 * (a + k))%nat
      /\ ((j <= 2 * (a + k))%nat -> (j <= c)%nat).
Proof.
  intros Hbefore Hafter. induction k as [|k IH]; intros a s Hs Ha.
  - exists (2 * a)%nat. repeat split; try lia.
    cbn. rewrite app_nil_r. destruct s; cbn in *; subst; reflexivity.
  - rewrite wait_loop_round, Hs.
    destruct (Nat.eq_dec j (2 * a)) as [Hj|Hj].
    { (* joined at the first question of this round *)
      rewrite (Hafter (2 * a)%nat) by lia. cbn [Z.ltb Z.compare].
      rewrite (Hafter (S (2 * a))) by lia. cbn [Z.leb Z.compare].
      exists (S (S (2 * a))). repeat split; try lia.
      replace (Nat.min (S k) (j / 2 - a)) with 0%nat
        by (subst j; rewrite Nat.mul_comm, Nat.div_mul by discriminate; lia).
      cbn. rewrite app_nil_r. reflexivity. }
    pose proof (Hbefore (2 * a)%nat ltac:(lia)) as H1.
    destruct (Z.ltb_spec (wlan_status w (2 * a)) 0) as [H|_]; [lia|].
    destruct (Nat.eq_dec j (S (2 * a))) as [Hj'|Hj'].
    { (* joined at the second question of this round *)
      rewrite (Hafter (S (2 * a))) by lia. cbn [Z.leb Z.compare].
      exists (S (S (2 * a))). repeat split; try lia.
      assert (Hdiv : (j / 2 = a)%nat).
      { subst j. symmetry. apply (Nat.div_unique _ 2 a 1); lia. }
      replace (Nat.min (S k) (j / 2 - a)) with 0%nat by lia.
      cbn. rewrite app_nil_r. reflexivity. }
    pose proof (Hbefore (S (2 * a)) ltac:(lia)) as H2.
    destruct (Z.leb_spec 3 (wlan_status w (S (2 * a)))) as [H|_]; [lia|].
    destruct (IH (S a)
                (mk_wifi_state (wifi_trace s ++ [EPrint WAITING; ESleep 1])
                   (S (S (2 * a)))) ltac:(cbn; lia) ltac:(lia))
      as [c [Hrun [Hc1 Hc2]]].
    exists c. cbn [wifi_trace] in Hrun. repeat split; try lia.
    rewrite Hrun, <- app_assoc. do 3 f_equal.
    assert (Hdiv : (S a <= j / 2)%nat).
    { apply Nat.div_le_lower_bound; lia. }
    replace (Nat.min (S k) (j / 2 - a)) with (S (Nat.min k (j / 2 - S a))) by lia.
    reflexivity.
Qed.

(** The link fails at the [j]-th answer: connecting before, a negative
    status from then on.  The loop stops at the first round that starts
    with a negative answer. *)
Lemma wait_loop_until_failed j :
  (forall k, (k < j)%nat -> 0 <= wlan_status w k < 3) ->
  (forall k, (j <= k)%nat -> wlan_status w k < 0) ->
  forall k a s,
    status_calls s = (2 * a)%nat ->
    exists c,
      wait_loop w k s =
        (Return tt,
         mk_wifi_state
           (wifi_trace s ++ waiting_rounds (Nat.min k ((j + 1) / 2 - a))) c).
Proof.
  intros Hbefore Hafter. induction k as [|k IH]; intros a s Hs.
  - exists (2 * a)%nat.
    cbn. rewrite app_nil_r. destruct s; cbn in *; subst; reflexivity.
  - rewrite wait_loop_round, Hs.
    destruct (Nat.le_gt_cases j (2 * a)) as [Hj|Hj].
    { pose proof (Hafter (2 * a)%nat Hj) as H1.
      destruct (Z.ltb_spec (wlan_status w (2 * a)) 0) as [_|H]; [|lia].
      exists (S (2 * a)).
      assert (Hdiv : ((j + 1) / 2 <= a)%nat).
      { apply Nat.lt_succ_r. apply Nat.Div0.div_lt_upper_bound; lia. }
      replace (Nat.min (S k) ((j + 1) / 2 - a)) with 0%nat by lia.
      cbn. rewrite app_nil_r. reflexivity. }
    pose proof (Hbefore (2 * a)%nat Hj) as H1.
    destruct (Z.ltb_spec (wlan_status w (2 * a)) 0) as [H|_]; [lia|].
    assert (H2 : wlan_status w (S (2 * a)) < 3).
    { destruct (Nat.le_gt_cases j (S (2 * a))) as [H|H].
      - pose proof (Hafter _ H). lia.
      - pose proof (Hbefore _ H). lia. }
    destruct (Z.leb_spec 3 (wlan_status w (S (2 * a)))) as [H|_]; [lia|].
    destruct (IH (S a)
                (mk_wifi_state (wifi_trace s ++ [EPrint WAITING; ESleep 1])
                   (S (S (2 * a)))) ltac:(cbn; lia))
      as [c Hrun].
    exists c. cbn [wifi_trace] in Hrun.
    rewrite Hrun, <- app_assoc. do 3 f_equal.
    assert (Hdiv : (S a <= (j + 1) / 2)%nat).
    { apply Nat.div_le_lower_bound; lia. }
    replace (Nat.min (S k) ((j + 1) / 2 - a))
      with (S (Nat.min k ((j + 1) / 2 - S a))) by lia.
    reflexivity.
Qed.

End WaitLoop.

(** X1. When the link comes up at the [j]-th answer of the driver
    (connecting before, status 3 from then on), [connect_to_wifi] returns
    the address exactly when [j] is at most twice the configured attempts;
    it has then slept [j / 2] times, one second each, and its last two lines
    announce the network and the address.  When the link comes up later it
    raises its [RuntimeError] after all the attempts. *)
Theorem connect_to_wifi_link_comes_up :
  forall cfg w j,
    (forall k, (k < j)%nat -> 0 <= wlan_status w k < 3) ->
    (forall k, (j <= k)%nat -> wlan_status w k = 3) ->
    let n := Z.to_nat (MAX_WIFI_CONNECTION_ATTEMPTS cfg) in
    let ip_address := fst (fst (fst (wlan_ifconfig w))) in
    let r := connect_to_wifi cfg w wifi_init in
    ((j <= 2 * n)%nat ->
       fst r = Return ip_address /\
       sleeps (wifi_trace (snd r)) = repeat 1 (j / 2)%nat /\
       exists t,
         wifi_trace (snd r) =
           t ++ [EPrint (lit "Connected to WiFi network " ++ SSID cfg ++ lit "!");
                 EPrint (lit "IP Address: " ++ ip_address)]) /\
    ((2 * n < j)%nat ->
       fst r = Raise CONNECTION_FAILED /\
       sleeps (wifi_trace (snd r)) = repeat 1 n).
Proof.
  intros cfg w j Hbefore Hafter n ip_address r.
  destruct (wifi_start_init cfg w) as [t0 [Hstart Hsl]].
  destruct (wait_loop_until_joined w j Hbefore Hafter n 0%nat
              (mk_wifi_state t0 0) eq_refl ltac:(lia))
    as [c [Hloop [Hc1 Hc2]]].
  cbn [wifi_trace] in Hloop. rewrite Nat.sub_0_r in Hloop.
  assert (Hr : r = wifi_finish cfg w
                     (mk_wifi_state (t0 ++ waiting_rounds (Nat.min n (j / 2))) c))
    by (apply (connect_to_wifi_run cfg w t0); assumption).
  rewrite wifi_finish_run in Hr. cbn [wifi_trace status_calls] in Hr.
  split; intros Hj.
  - rewrite (Hafter c) in Hr by lia. cbn [Z.eqb Pos.eqb] in Hr.
    assert (Hmin : Nat.min n (j / 2) = (j / 2)%nat).
    { apply Nat.min_r. apply Nat.Div0.div_le_upper_bound. lia. }
    rewrite Hmin in Hr. rewrite Hr. cbn [fst snd wifi_trace].
    split; [reflexivity|]. split.
    + rewrite !sleeps_app, Hsl, sleeps_waiting_rounds. cbn. apply app_nil_r.
    + eexists. reflexivity.
  - pose proof (Hbefore c ltac:(lia)) as Hst.
    destruct (Z.eqb_spec (wlan_status w c) 3) as [H|_]; [lia|].
    assert (Hmin : Nat.min n (j / 2) = n).
    { apply Nat.min_l. apply Nat.div_le_lower_bound; lia. }
    rewrite Hmin in Hr. rewrite Hr. cbn [fst snd wifi_trace].
    split; [reflexivity|].
    rewrite sleeps_app, Hsl, sleeps_waiting_rounds. reflexivity.
Qed.

(** The link is up at the eighth answer: three rounds of waiting. *)
Lemma connect_to_wifi_link_comes_up_witness :
  let w := mk_wlan [40; 205; 193; 0; 171; 18]%N
             (fun k => if (k <? 7)%nat then 1 else 3)
             (lit "192.168.1.20", lit "255.255.255.0", lit "192.168.1.1", lit "8.8.8.8") in
  (forall k, (k < 7)%nat -> 0 <= wlan_status w k < 3) /\
  (forall k, (7 <= k)%nat -> wlan_status w k = 3) /\
  fst (connect_to_wifi source_config w wifi_init) = Return (lit "192.168.1.20") /\
  sleeps (wifi_trace (snd (connect_to_wifi source_config w wifi_init))) = [1; 1; 1].
Proof.
  intros w.
  assert (H1 : forall k, (k < 7)%nat -> 0 <= wlan_status w k < 3).
  { intros k Hk. simpl. destruct (Nat.ltb_spec k 7); lia. }
  assert (H2 : forall k, (7 <= k)%nat -> wlan_status w k = 3).
  { intros k Hk. simpl. destruct (Nat.ltb_spec k 7); lia. }
  split; [exact H1|]. split; [exact H2|].
  pose proof (proj1 (connect_to_wifi_link_comes_up source_config w 7 H1 H2)) as H.
  assert (Hle : (7 <= 2 * Z.to_nat (MAX_WIFI_CONNECTION_ATTEMPTS source_config))%nat)
    by (simpl; lia).
  split; [exact (proj1 (H Hle)) | exact (proj1 (proj2 (H Hle)))].
Defined.

(** X2. When the link fails at the [j]-th answer (connecting before, a
    negative status from then on), [connect_to_wifi] raises its
    [RuntimeError] having slept [(j + 1) / 2] times, or all its attempts if
    that is more: a failure reported as the second answer of a round is
    seen one round later, and no round follows one that saw it. *)
Theorem connect_to_wifi_link_fails :
  forall cfg w j,
    (forall k, (k < j)%nat -> 0 <= wlan_status w k < 3) ->
    (forall k, (j <= k)%nat -> wlan_status w k < 0) ->
    let n := Z.to_nat (MAX_WIFI_CONNECTION_ATTEMPTS cfg) in
    let r := connect_to_wifi cfg w wifi_init in
    fst r = Raise CONNECTION_FAILED /\
    sleeps (wifi_trace (snd r)) = repeat 1 (Nat.min n ((j + 1) / 2)).
Proof.
  intros cfg w j Hbefore Hafter n r.
  destruct (wifi_start_init cfg w) as [t0 [Hstart Hsl]].
  destruct (wait_loop_until_failed w j Hbefore Hafter n 0%nat
              (mk_wifi_state t0 0) eq_refl)
    as [c Hloop].
  cbn [wifi_trace] in Hloop. rewrite Nat.sub_0_r in Hloop.
  assert (Hr : r = wifi_finish cfg w
                     (mk_wifi_state (t0 ++ waiting_rounds (Nat.min n ((j + 1) / 2))) c))
    by (apply (connect_to_wifi_run cfg w t0); assumption).
  rewrite wifi_finish_run in Hr. cbn [wifi_trace status_calls] in Hr.
  assert (Hst : wlan_status w c < 3).
  { destruct (Nat.le_gt_cases j c) as [H|H].
    - pose proof (Hafter _ H). lia.
    - pose proof (Hbefore _ H). lia. }
  destruct (Z.eqb_spec (wlan_status w c) 3) as [H|_]; [lia|].
  rewrite Hr. cbn [fst snd wifi_trace].
  split; [reflexivity|].
  rewrite sleeps_app, Hsl, sleeps_waiting_rounds. reflexivity.
Qed.

(** The link fails at the fourth answer: two rounds of waiting. *)
Lemma connect_to_wifi_link_fails_witness :
  let w := mk_wlan [40; 205; 193; 0; 171; 18]%N
             (fun k => if (k <? 3)%nat then 1 else -2)
             (lit "0.0.0.0", lit "255.255.255.0", lit "0.0.0.0", lit "0.0.0.0") in
  (forall k, (k < 3)%nat -> 0 <= wlan_status w k < 3) /\
  (forall k, (3 <= k)%nat -> wlan_status w k < 0) /\
  fst (connect_to_wifi source_config w wifi_init) = Raise CONNECTION_FAILED /\
  sleeps (wifi_trace (snd (connect_to_wifi source_config w wifi_init))) = [1; 1].
Proof.
  intros w.
  assert (H1 : forall k, (k < 3)%nat -> 0 <= wlan_status w k < 3).
  { intros k Hk. simpl. destruct (Nat.ltb_spec k 3); lia. }
  assert (H2 : forall k, (3 <= k)%nat -> wlan_status w k < 0).
  { intros k Hk. simpl. destruct (Nat.ltb_spec k 3); lia. }
  split; [exact H1|]. split; [exact H2|].
  exact (connect_to_wifi_link_fails source_config w 3 H1 H2).
Defined.

(** X3. Whatever the driver answers, [connect_to_wifi] sleeps at most
    [MAX_WIFI_CONNECTION_ATTEMPTS] times, always for one second, and asks
    the status at least once and at most twice per attempt plus once. *)
Theorem connect_to_wifi_wait_is_bounded :
  forall cfg w,
    let n := Z.to_nat (MAX_WIFI_CONNECTION_ATTEMPTS cfg) in
    let s := snd (connect_to_wifi cfg w wifi_init) in
    (List.length (sleeps (wifi_trace s)) <= n)%nat /\
    Forall (fun seconds => seconds = 1) (sleeps (wifi_trace s)) /\
    (1 <= status_calls s <= 2 * n + 1)%nat.
Proof.
  intros cfg w n s.
  destruct (wifi_start_init cfg w) as [t0 [Hstart Hsl]].
  destruct (wait_loop_bounded w n (mk_wifi_state t0 0)) as [i [c [Hi [Hc Hloop]]]].
  cbn [wifi_trace status_calls] in *.
  assert (Hs : s = snd (wifi_finish cfg w (mk_wifi_state (t0 ++ waiting_rounds i) c))).
  { unfold s. f_equal. apply (connect_to_wifi_run cfg w t0); assumption. }
  rewrite wifi_finish_run in Hs. cbn [wifi_trace status_calls] in Hs.
  assert (Hsleeps : sleeps (wifi_trace s) = repeat 1 i).
  { rewrite Hs. destruct (wlan_status w c =? 3); cbn [snd wifi_trace];
      rewrite ?sleeps_app, Hsl, sleeps_waiting_rounds; cbn; rewrite ?app_nil_r;
      reflexivity. }
  assert (Hcalls : status_calls s = S c).
  { rewrite Hs. destruct (wlan_status w c =? 3); reflexivity. }
  rewrite Hsleeps, Hcalls, repeat_length.
  split; [exact Hi|]. split; [|lia].
  apply Forall_forall. intros x Hx. apply repeat_spec in Hx. exact Hx.
Qed.

(** ** More on the request handler *)

Section Rounds.

Variable cfg : config.
Variable env : request_env.

Let c := fst (incoming env).
Let request_ip := fst (snd (incoming env)).
Let steps := body_steps c request_ip (response_of cfg env).

(** What the steps of the [try] block send, by the calls that fail. *)
Lemma run_steps_sends t r :
  run_steps (fault env) steps = (t, r) ->
  sent t = if sends env then [response_of cfg env] else [].
Proof.
  unfold steps, body_steps, sends. cbn [run_steps].
  case_faults (fault env); intros [= <- <-]; reflexivity.
Qed.

(** The first failing call of the steps raises what the surroundings say. *)
Lemma run_steps_raises t e :
  run_steps (fault env) steps = (t, Some e) -> exists p, fault env p = Some e.
Proof.
  unfold steps, body_steps. cbn [run_steps].
  repeat match goal with
         | |- context [fault env ?p] =>
             let H := fresh in destruct (fault env p) eqn:H
         end; intros [= <- <-] || intros [=]; eexists; eassumption.
Qed.

(** A round the [except] clause can deal with returns normally, with the
    client closed once and at most the one response sent. *)
Lemma main_loop_handled s :
  handled_round env ->
  exists t,
    main_loop cfg env s = (Return tt, mk_handler_state (trace s ++ t) (Some c)) /\
    closed t = [c] /\
    sent t = if sends env then [response_of cfg env] else [].
Proof.
  intros [Hacc [Hexc [Hclose Hprint]]].
  rewrite (main_loop_accept_ok cfg env s Hacc). fold c request_ip steps.
  destruct (run_steps (fault env) steps) as [t [e|]] eqn:Hsteps.
  - destruct (run_steps_raises t e Hsteps) as [p Hp].
    rewrite (Hexc p e Hp), main_loop_handler_run, Hclose, Hprint. fold c.
    exists (t ++ [EClose c; EPrint (lit "Connection closed: " ++ exn_str e)]).
    split; [rewrite app_assoc; reflexivity|]. split.
    + rewrite closed_app, (run_steps_failed_not_closed _ _ _ _ _ _ Hsteps).
      reflexivity.
    + rewrite sent_app, (run_steps_sends _ _ Hsteps). cbn. apply app_nil_r.
  - exists t. split; [reflexivity|]. split.
    + apply run_steps_completed in Hsteps as [t' [-> [_ Hcl]]].
      rewrite closed_app, Hcl. reflexivity.
    + apply (run_steps_sends _ _ Hsteps).
Qed.

End Rounds.

(** Rounds the [except] clause can deal with, one after the other. *)
Lemma serve_handled cfg rounds :
  forall s,
    Forall handled_round rounds ->
    fst (serve cfg rounds s) = Return tt /\
    closed (trace (snd (serve cfg rounds s)))
      = closed (trace s) ++ map (fun env => fst (incoming env)) rounds /\
    sent (trace (snd (serve cfg rounds s)))
      = sent (trace s)
          ++ flat_map (fun env => if sends env then [response_of cfg env] else [])
               rounds.
Proof.
  induction rounds as [|env rounds IH]; intros s Hall.
  - cbn. rewrite !app_nil_r. repeat split.
  - inversion Hall as [|? ? Henv Hrest]; subst.
    destruct (main_loop_handled cfg env s Henv) as [t [Hrun [Hcl Hsent]]].
    rewrite serve_cons, Hrun.
    destruct (IH (mk_handler_state (trace s ++ t) (Some (fst (incoming env)))) Hrest)
      as [Hret [Hclosed Hsends]].
    cbn [trace] in Hclosed, Hsends.
    split; [exact Hret|]. split.
    + rewrite Hclosed, closed_app, Hcl, <- app_assoc. reflexivity.
    + rewrite Hsends, sent_app, Hsent, <- app_assoc. reflexivity.
Qed.

(** X4. Over any number of rounds the [except] clause can deal with
    ([accept] returns, what fails raises an [Exception], the clause's own
    close and print complete), the serving loop never stops: every accepted
    connection is closed exactly once, in the order of arrival, and every
    round that gets as far as the send has sent the response of its own
    sample, whatever failed in the rounds before it. *)
Theorem serve_handles_every_round :
  forall cfg rounds s,
    Forall handled_round rounds ->
    let r := serve cfg rounds s in
    fst r = Return tt /\
    closed (trace (snd r))
      = closed (trace s) ++ map (fun env => fst (incoming env)) rounds /\
    sent (trace (snd r))
      = sent (trace s)
          ++ flat_map (fun env => if sends env then [response_of cfg env] else [])
               rounds.
Proof.
  intros cfg rounds s Hall r. apply serve_handled, Hall.
Qed.

(** A round whose send fails, then a round in which nothing fails. *)
Lemma serve_handles_every_round_witness :
  let c1 := mk_socket 1 (lit "GET / HTTP/1.1") in
  let c2 := mk_socket 2 (lit "GET /favicon.ico HTTP/1.1") in
  let env1 := mk_env (fault_at AtSend (mk_exn OSError (lit "[Errno 104] ECONNRESET")))
                (c1, (lit "192.168.1.5", 51234)) 20000 in
  let env2 := mk_env no_fault (c2, (lit "192.168.1.6", 40000)) 50000 in
  Forall handled_round [env1; env2] /\
  fst (serve source_config [env1; env2] handler_init) = Return tt /\
  closed (trace (snd (serve source_config [env1; env2] handler_init))) = [c1; c2] /\
  sent (trace (snd (serve source_config [env1; env2] handler_init)))
    = [response_of source_config env2].
Proof.
  intros c1 c2 env1 env2.
  assert (H1 : handled_round env1).
  { split; [reflexivity|]. split; [|split; reflexivity].
    intros p e. destruct p; simpl; intros H; inversion H; reflexivity. }
  assert (H2 : handled_round env2).
  { split; [reflexivity|]. split; [|split; reflexivity].
    intros p e H. discriminate H. }
  assert (Hall : Forall handled_round [env1; env2])
    by (constructor; [exact H1 | constructor; [exact H2 | constructor]]).
  split; [exact Hall|].
  exact (serve_handles_every_round source_config [env1; env2] handler_init Hall).
Defined.



(** X6. What is not an [Exception] (a [KeyboardInterrupt]) is not caught:
    raised by [accept] it leaves [main_loop] as it is; raised by a later
    call of the [try] block it leaves [main_loop] too, the [except] clause
    does not run, and the client is not closed. *)
Theorem main_loop_lets_interrupts_through :
  forall cfg env s e,
    is_Exception e = false ->
    let r := main_loop cfg env s in
    let body := main_loop_body cfg env (mk_handler_state (trace s) None) in
    (fault env AtAccept = Some e ->
       r = (Raise e, mk_handler_state (trace s) None)) /\
    (fault env AtAccept = None -> fst body = Raise e ->
       r = body /\ closed (trace (snd r)) = closed (trace s)).
Proof.
  intros cfg env s e Hexc r body. split.
  - intros Hacc. unfold r, main_loop, enter, bind, try_except.
    assert (Hbody : forall st, main_loop_body cfg env st = (Raise e, st)).
    { intros st. unfold main_loop_body, at_site. rewrite Hacc. reflexivity. }
    rewrite Hbody, Hexc. reflexivity.
  - intros Hacc Hbody.
    assert (Hr : r = main_loop cfg env s) by reflexivity.
    assert (Hb : body = main_loop_body cfg env (mk_handler_state (trace s) None))
      by reflexivity.
    rewrite (main_loop_accept_ok cfg env s Hacc) in Hr.
    rewrite (main_loop_body_run cfg env (trace s) Hacc) in Hb.
    destruct (run_steps (fault env) _) as [t [e0|]] eqn:Hsteps.
    + rewrite Hb in Hbody. cbn [fst] in Hbody. injection Hbody as ->.
      rewrite Hexc in Hr. split; [rewrite Hr, Hb; reflexivity|].
      rewrite Hr. cbn [snd trace].
      rewrite closed_app, (run_steps_failed_not_closed _ _ _ _ _ _ Hsteps).
      apply app_nil_r.
    + rewrite Hb in Hbody. discriminate Hbody.
Qed.

(** An interrupt during the pause after the send. *)
Lemma main_loop_lets_interrupts_through_witness :
  let stop := mk_exn KeyboardInterrupt [] in
  let c := mk_socket 1 (lit "GET / HTTP/1.1") in
  let env := mk_env (fault_at AtSleep stop) (c, (lit "192.168.1.5", 51234)) 20000 in
  is_Exception stop = false /\
  fault env AtAccept = None /\
  fst (main_loop source_config env handler_init) = Raise stop /\
  closed (trace (snd (main_loop source_config env handler_init))) = [].
Proof.
  intros stop c env.
  assert (Hbody : fst (main_loop_body source_config env (mk_handler_state [] None))
                  = Raise stop) by (vm_compute; reflexivity).
  pose proof (proj2 (main_loop_lets_interrupts_through source_config env handler_init
                       stop eq_refl) eq_refl Hbody) as [Hr Hcl].
  split; [reflexivity|]. split; [reflexivity|]. split; [|exact Hcl].
  rewrite Hr. exact Hbody.
Defined.

(** ** More on the sensor reading *)

(** *** The order of floats *)

(** The comparison of two finite floats of the same sign, as an order on
    exponent and mantissa. *)
Ltac compare_cases :=
  repeat match goal with
         | H : context [Pos.compare_cont Eq ?a ?b] |- _ =>
             change (Pos.compare_cont Eq a b) with (Pos.compare a b) in H
         | |- context [Pos.compare_cont Eq ?a ?b] =>
             change (Pos.compare_cont Eq a b) with (Pos.compare a b)
         end;
  repeat match goal with
         | H : context [Z.compare ?a ?b] |- _ =>
             destruct (Z.compare_spec a b); try discriminate H
         | H : context [Pos.compare ?a ?b] |- _ =>
             destruct (Pos.compare_spec a b); try discriminate H
         end;
  repeat match goal with
         | |- context [Z.compare ?a ?b] => destruct (Z.compare_spec a b)
         | |- context [Pos.compare ?a ?b] => destruct (Pos.compare_spec a b)
         end;
  simpl; try reflexivity; try lia.

Lemma SFltb_leb_trans x y z :
  SFltb x y = true -> SFleb y z = true -> SFltb x z = true.
Proof.
  unfold SFltb, SFleb.
  destruct x as [[|]|[|]| |[|] mx ex], y as [[|]|[|]| |[|] my ey],
    z as [[|]|[|]| |[|] mz ez];
    cbn [SFcompare CompOpp]; try discriminate; try reflexivity;
    intros H1 H2; compare_cases.
Qed.

Lemma SFleb_trans x y z :
  SFleb x y = true -> SFleb y z = true -> SFleb x z = true.
Proof.
  unfold SFleb.
  destruct x as [[|]|[|]| |[|] mx ex], y as [[|]|[|]| |[|] my ey],
    z as [[|]|[|]| |[|] mz ez];
    cbn [SFcompare CompOpp]; try discriminate; try reflexivity;
    intros H1 H2; compare_cases.
Qed.

Lemma SFltb_leb x y : SFltb x y = true -> SFleb x y = true.
Proof.
  unfold SFltb, SFleb. destruct (SFcompare x y) as [[| |]|]; try discriminate;
    reflexivity.
Qed.

Lemma SFleb_not_ltb x y : SFleb x y = true -> SFltb y x = false.
Proof.
  unfold SFltb, SFleb.
  destruct x as [[|]|[|]| |[|] mx ex], y as [[|]|[|]| |[|] my ey];
    cbn [SFcompare CompOpp]; try discriminate; try reflexivity;
    intros H1; compare_cases.
Qed.

Lemma SFleb_refl_right x y : SFleb x y = true -> SFleb y y = true.
Proof.
  unfold SFleb.
  destruct x as [[|]|[|]| |[|] mx ex], y as [[|]|[|]| |[|] my ey];
    cbn [SFcompare CompOpp]; try discriminate; try reflexivity;
    intros _; rewrite Z.compare_refl;
    change (Pos.compare_cont Eq my my) with (Pos.compare my my);
    rewrite Pos.compare_refl; reflexivity.
Qed.

(** *** The floats of the tenths *)

(** Each of the floats of 0.0, 0.1, ..., 99.9 is below the next one. *)
Lemma tenths_increasing_table :
  all_from 10 0
    (fun t => (1000 <=? t) || SFltb (decimal t (-1)) (decimal (t + 1) (-1))) = true.
Proof. vm_cast_no_check (eq_refl true). Qed.

Lemma decimal_lt_next t :
  0 <= t < 1000 -> SFltb (decimal t (-1)) (decimal (t + 1) (-1)) = true.
Proof.
  intros Ht.
  assert (H : 0 <= t < 0 + 2 ^ Z.of_nat 10)
    by (change (2 ^ Z.of_nat 10) with 1024; lia).
  apply (all_from_spec _ 10 0 tenths_increasing_table) in H.
  apply orb_prop in H as [H|H]; [apply Z.leb_le in H; lia | exact H].
Qed.

(** The floats of the tenths are ordered as the tenths are. *)
Lemma decimal_lt t1 t2 :
  0 <= t1 -> t1 < t2 -> t2 <= 1000 ->
  SFltb (decimal t1 (-1)) (decimal t2 (-1)) = true.
Proof.
  intros H1 Hlt H2.
  replace t2 with (t1 + 1 + Z.of_nat (Z.to_nat (t2 - t1 - 1))) in * by lia.
  induction (Z.to_nat (t2 - t1 - 1)) as [|d IH].
  - rewrite Z.add_0_r. apply decimal_lt_next. lia.
  - rewrite Nat2Z.inj_succ in *.
    apply (SFltb_leb_trans _ (decimal (t1 + 1 + Z.of_nat d) (-1))).
    + apply IH; lia.
    + apply SFltb_leb.
      replace (t1 + 1 + Z.succ (Z.of_nat d)) with (t1 + 1 + Z.of_nat d + 1) by lia.
      apply decimal_lt_next. lia.
Qed.

Lemma decimal_le t1 t2 :
  0 <= t1 -> t1 <= t2 -> t2 <= 1000 ->
  SFleb (decimal t1 (-1)) (decimal t2 (-1)) = true.
Proof.
  intros H1 Hle H2.
  destruct (Z.eq_dec t1 t2) as [->|Hne].
  - apply (SFleb_refl_right (decimal 0 (-1))).
    assert (H : 0 <= t2 < 0 + 2 ^ Z.of_nat 10)
      by (change (2 ^ Z.of_nat 10) with 1024; lia).
    apply (all_from_spec _ 10 0 tenths_table) in H.
    apply orb_prop in H as [H|H]; [apply Z.ltb_lt in H; lia|].
    apply andb_prop in H. apply H.
  - apply SFltb_leb, decimal_lt; lia.
Qed.

(** The comparison of two such floats is the comparison of the tenths. *)
Lemma decimal_gt_iff t T :
  0 <= t <= 1000 -> 0 <= T <= 1000 ->
  fgt (decimal t (-1)) (decimal T (-1)) = (T <? t).
Proof.
  intros Ht HT. unfold fgt.
  destruct (Z.ltb_spec T t) as [H|H].
  - apply decimal_lt; lia.
  - apply SFleb_not_ltb, decimal_le; lia.
Qed.

Lemma tenths_monotone r1 r2 : r1 <= r2 -> tenths r1 <= tenths r2.
Proof. intros H. unfold tenths. apply Z.div_le_mono; lia. Qed.

(** X7. A higher sample never reads lower, and once a sample is reported
    too dry every higher sample is: for two samples [r1 <= r2] in
    [0, 65535] and any threshold, the percentages are in that order and the
    flag of the lower implies the flag of the higher. *)
Theorem soil_reading_is_monotone :
  forall cfg env1 env2 s1 s2,
    fault env1 AtReadADC = None ->
    fault env2 AtReadADC = None ->
    0 <= adc_value env1 <= adc_value env2 ->
    adc_value env2 <= 65535 ->
    exists p1 d1 p2 d2,
      get_soil_data cfg env1 s1 = (Return (p1, d1), s1) /\
      get_soil_data cfg env2 s2 = (Return (p2, d2), s2) /\
      fle p1 p2 = true /\
      (d1 = true -> d2 = true).
Proof.
  intros cfg env1 env2 s1 s2 Hf1 Hf2 Hr1 Hr2.
  rewrite (get_soil_data_run cfg env1 s1 Hf1), (get_soil_data_run cfg env2 s2 Hf2).
  do 4 eexists. split; [reflexivity|]. split; [reflexivity|].
  rewrite (dryness_exact (adc_value env1)), (dryness_exact (adc_value env2)) by lia.
  pose proof (tenths_range (adc_value env1) ltac:(lia)) as Ht1.
  pose proof (tenths_range (adc_value env2) ltac:(lia)) as Ht2.
  pose proof (tenths_monotone _ _ (proj2 Hr1)) as Hmono.
  assert (Hle : fle (decimal (tenths (adc_value env1)) (-1))
                    (decimal (tenths (adc_value env2)) (-1)) = true)
    by (apply decimal_le; lia).
  split; [exact Hle|].
  unfold fgt. intros Hd. eapply SFltb_leb_trans; eassumption.
Qed.

Lemma soil_reading_is_monotone_witness :
  let env1 := mk_env no_fault (mk_socket 1 [], (lit "192.168.1.5", 51234)) 45000 in
  let env2 := mk_env no_fault (mk_socket 2 [], (lit "192.168.1.5", 51235)) 50000 in
  0 <= adc_value env1 <= adc_value env2 /\
  adc_value env2 <= 65535 /\
  exists p1 d1 p2 d2,
    get_soil_data source_config env1 handler_init = (Return (p1, d1), handler_init) /\
    get_soil_data source_config env2 handler_init = (Return (p2, d2), handler_init) /\
    fle p1 p2 = true /\
    (d1 = true -> d2 = true).
Proof.
  intros env1 env2.
  assert (H1 : 0 <= adc_value env1 <= adc_value env2) by (simpl; lia).
  assert (H2 : adc_value env2 <= 65535) by (simpl; lia).
  split; [exact H1|]. split; [exact H2|].
  exact (soil_reading_is_monotone source_config env1 env2 handler_init handler_init
           eq_refl eq_refl H1 H2).
Defined.

(** X8. For a threshold written with one decimal in [0, 100], that is
    [T / 10] for an integer [T] in [0, 1000], the float comparison of the
    reader decides exactly whether the sample, in tenths of a percent, is
    above [T]: no rounding of the floats blurs the threshold.  With the
    threshold 60.0 of the source the plant is reported too dry exactly when
    the sample is 39354 or more. *)
Theorem soil_threshold_is_exact :
  forall cfg env s T,
    MAX_DRYNESS_PERCENTAGE cfg = decimal T (-1) ->
    0 <= T <= 1000 ->
    fault env AtReadADC = None ->
    0 <= adc_value env <= 65535 ->
    let r := adc_value env in
    get_soil_data cfg env s = (Return (decimal (tenths r) (-1), T <? tenths r), s) /\
    (T = 600 -> (T <? tenths r) = (39354 <=? r)).
Proof.
  intros cfg env s T Hthr HT Hfault Hr r.
  pose proof (tenths_range r Hr) as Ht.
  split.
  - rewrite (get_soil_data_run cfg env s Hfault), Hthr. fold r.
    rewrite (dryness_exact r Hr), decimal_gt_iff by lia. reflexivity.
  - intros ->.
    assert (Hdm : 2000 * r + 65535
                  = 131070 * tenths r + (2000 * r + 65535) mod 131070)
      by (apply Z.div_mod; lia).
    pose proof (Z.mod_pos_bound (2000 * r + 65535) 131070 eq_refl) as Hm.
    destruct (Z.ltb_spec 600 (tenths r)), (Z.leb_spec 39354 r); lia || reflexivity.
Qed.

Lemma soil_threshold_is_exact_witness :
  let env := mk_env no_fault (mk_socket 1 [], (lit "192.168.1.5", 51234)) 39354 in
  MAX_DRYNESS_PERCENTAGE source_config = decimal 600 (-1) /\
  0 <= 600 <= 1000 /\
  0 <= adc_value env <= 65535 /\
  get_soil_data source_config env handler_init
    = (Return (decimal (tenths 39354) (-1), 600 <? tenths 39354), handler_init).
Proof.
  intros env.
  assert (HT : 0 <= 600 <= 1000) by lia.
  assert (Hr : 0 <= adc_value env <= 65535) by (simpl; lia).
  split; [reflexivity|]. split; [exact HT|]. split; [exact Hr|].
  exact (proj1 (soil_threshold_is_exact source_config env handler_init 600
                  eq_refl HT eq_refl Hr)).
Defined.

(** *** The text of the reading *)

Lemma str_eqb_eq s t : str_eqb s t = true -> s = t.
Proof.
  revert t. induction s as [|c s IH]; intros [|d t]; simpl; try discriminate.
  - reflexivity.
  - intros H. apply andb_prop in H as [Hc Hs].
    apply N.eqb_eq in Hc. apply IH in Hs. congruence.
Qed.

(** [json.dumps] writes each of the floats of 0.0, 0.1, ..., 100.0 with its
    one decimal. *)
Lemma tenths_text_table :
  all_from 10 0
    (fun t => (1000 <? t) || str_eqb (floatstr (decimal t (-1))) (one_decimal t)) = true.
Proof. vm_cast_no_check (eq_refl true). Qed.

Lemma floatstr_tenths t :
  0 <= t <= 1000 -> floatstr (decimal t (-1)) = one_decimal t.
Proof.
  intros Ht. apply str_eqb_eq.
  assert (H : 0 <= t < 0 + 2 ^ Z.of_nat 10)
    by (change (2 ^ Z.of_nat 10) with 1024; lia).
  apply (all_from_spec _ 10 0 tenths_text_table) in H.
  apply orb_prop in H as [H|H]; [apply Z.ltb_lt in H; lia | exact H].
Qed.

(** X9. For every sample in [0, 65535] the JSON text of the round is the
    object of the four keys in the order of the source, and its
    [dryness_percent] is written as the integer part, a point and exactly
    one digit: the tenths that exact arithmetic gives for
    [1000 * raw / 65535], never a longer expansion or an exponent. *)
Theorem result_shows_one_decimal :
  forall cfg r is_too_dry,
    0 <= r <= 65535 ->
    result_of cfg (dryness_of r) is_too_dry =
      lit "{" ++ quoted "plant" ++ lit ": "
        ++ encode_basestring true (PLANT_NAME cfg) ++ lit ", "
        ++ quoted "dryness_percent" ++ lit ": "
        ++ py_str_int (tenths r / 10) ++ lit "." ++ py_str_int (tenths r mod 10)
        ++ lit ", "
        ++ quoted "max_allowable_dryness" ++ lit ": "
        ++ floatstr (MAX_DRYNESS_PERCENTAGE cfg) ++ lit ", "
        ++ quoted "is_plant_too_dry" ++ lit ": "
        ++ (if is_too_dry then lit "true" else lit "false") ++ lit "}".
Proof.
  intros cfg r is_too_dry Hr.
  pose proof (floatstr_tenths (tenths r) (tenths_range r Hr)) as Htext.
  rewrite <- (dryness_exact r Hr) in Htext. unfold one_decimal in Htext.
  unfold result_of, json_dumps, json_dumps_with.
  cbn [map join]. unfold json_item. cbn [json_value fst snd].
  rewrite Htext.
  change (encode_basestring true (lit "plant")) with (quoted "plant").
  change (encode_basestring true (lit "dryness_percent")) with (quoted "dryness_percent").
  change (encode_basestring true (lit "max_allowable_dryness"))
    with (quoted "max_allowable_dryness").
  change (encode_basestring true (lit "is_plant_too_dry")) with (quoted "is_plant_too_dry").
  rewrite <- !app_assoc. reflexivity.
Qed.

Lemma result_shows_one_decimal_witness :
  0 <= 20000 <= 65535 /\
  result_of source_config (dryness_of 20000) false =
    lit "{" ++ quoted "plant" ++ lit ": " ++ quoted "Andrew's Yucca Plant" ++ lit ", "
      ++ quoted "dryness_percent" ++ lit ": 30.5, "
      ++ quoted "max_allowable_dryness" ++ lit ": 60.0, "
      ++ quoted "is_plant_too_dry" ++ lit ": false}".
Proof.
  assert (Hr : 0 <= 20000 <= 65535) by lia.
  split; [exact Hr|].
  rewrite (result_shows_one_decimal source_config 20000 false Hr).
  vm_compute. reflexivity.
Defined.

(** ** [make_socket] and [main] *)

Section Main.

Variable cfg : config.
Variable w : wlan.
Variable senv : socket_env.

Let port := LISTENING_PORT cfg.
Let addr := resolved senv (lit "0.0.0.0") port.
Let s := new_socket senv.

(** [make_socket] runs its four calls up to the first that fails. *)
Lemma make_socket_run t :
  make_socket senv port t =
    match socket_fault senv AtGetaddrinfo, socket_fault senv AtSocket,
          socket_fault senv AtBind, socket_fault senv AtListen with
    | Some e, _, _, _ => (Raise e, t)
    | None, Some e, _, _ => (Raise e, t ++ [EGetaddrinfo (lit "0.0.0.0") port])
    | None, None, Some e, _ =>
        (Raise e, t ++ [EGetaddrinfo (lit "0.0.0.0") port; ESocket s])
    | None, None, None, Some e =>
        (Raise e, t ++ [EGetaddrinfo (lit "0.0.0.0") port; ESocket s; EBind s addr])
    | None, None, None, None =>
        (Return s,
         t ++ [EGetaddrinfo (lit "0.0.0.0") port; ESocket s; EBind s addr;
               EListen s 1])
    end.
Proof.
  unfold make_socket, socket_call, bind, note, ret, raise.
  destruct (socket_fault senv AtGetaddrinfo); [reflexivity|].
  destruct (socket_fault senv AtSocket); [reflexivity|].
  destruct (socket_fault senv AtBind); [rewrite <- app_assoc; reflexivity|].
  destruct (socket_fault senv AtListen); rewrite <- !app_assoc; reflexivity.
Qed.

(** A failing [make_socket] raises the failure of its first failing call
    and never listens. *)
Lemma make_socket_fails t e :
  socket_failure senv = Some e ->
  exists t',
    make_socket senv port t = (Raise e, t ++ t') /\
    script_events t' = [] /\
    ~ In (EListen s 1) t'.
Proof.
  unfold socket_failure. rewrite make_socket_run.
  destruct (socket_fault senv AtGetaddrinfo);
    [|destruct (socket_fault senv AtSocket);
      [|destruct (socket_fault senv AtBind);
        [|destruct (socket_fault senv AtListen)]]];
    intros [= <-] || intros [=];
    eexists; (split; [try reflexivity|]).
  - rewrite app_nil_r. reflexivity.
  - split; [reflexivity | intros []].
  - split; [reflexivity|]. cbn. intuition discriminate.
  - split; [reflexivity|]. cbn. intuition discriminate.
  - split; [reflexivity|]. cbn. intuition discriminate.
Qed.

Lemma make_socket_succeeds t :
  socket_failure senv = None ->
  make_socket senv port t =
    (Return s,
     t ++ [EGetaddrinfo (lit "0.0.0.0") port; ESocket s; EBind s addr; EListen s 1]).
Proof.
  unfold socket_failure. rewrite make_socket_run.
  destruct (socket_fault senv AtGetaddrinfo); [discriminate|].
  destruct (socket_fault senv AtSocket); [discriminate|].
  destruct (socket_fault senv AtBind); [discriminate|].
  destruct (socket_fault senv AtListen); [discriminate|]. reflexivity.
Qed.

End Main.

Lemma script_events_app t u : script_events (t ++ u) = script_events t ++ script_events u.
Proof. unfold script_events. apply flat_map_app. Qed.

Lemma socket_events_app t u : socket_events (t ++ u) = socket_events t ++ socket_events u.
Proof. unfold socket_events. apply filter_app. Qed.

Lemma script_events_Ev t : script_events (map Ev t) = t.
Proof. induction t as [|e t IH]; [reflexivity|]. cbn. f_equal. exact IH. Qed.

Lemma socket_events_Ev t : socket_events (map Ev t) = [].
Proof. induction t as [|e t IH]; [reflexivity|]. exact IH. Qed.

(** [main] is the bootstrap, then the socket, then the rounds. *)
Lemma main_run cfg w senv rounds :
  main cfg w senv rounds [] =
    match connect_to_wifi cfg w wifi_init with
    | (Raise e, ws) => (Raise e, [Ev (EPrint STARTED)] ++ map Ev (wifi_trace ws))
    | (Return ip_address, ws) =>
        match make_socket senv (LISTENING_PORT cfg)
                ([Ev (EPrint STARTED)] ++ map Ev (wifi_trace ws)) with
        | (Raise e, t) => (Raise e, t)
        | (Return _, t) =>
            run_rounds (serve cfg rounds)
              (t ++ [Ev (EPrint (listening_line cfg ip_address))])
        end
    end.
Proof.
  unfold main, bind, note, run_wifi.
  destruct (connect_to_wifi cfg w wifi_init) as [[ip|e] ws]; reflexivity.
Qed.

(** The bootstrap closes nothing. *)
Lemma connect_to_wifi_closes_nothing cfg w :
  closed (wifi_trace (snd (connect_to_wifi cfg w wifi_init))) = [].
Proof.
  destruct (wifi_start_init cfg w) as [t0 [Hstart _]].
  destruct (wait_loop_bounded w (Z.to_nat (MAX_WIFI_CONNECTION_ATTEMPTS cfg))
              (mk_wifi_state t0 0)) as [i [c [_ [_ Hloop]]]].
  cbn [wifi_trace] in Hloop.
  rewrite (connect_to_wifi_run cfg w t0 _ _ Hstart Hloop), wifi_finish_run.
  cbn [wifi_trace status_calls].
  assert (Ht0 : closed t0 = []).
  { revert Hstart. unfold wifi_start, wifi_emit, emit, bind.
    cbn [wifi_trace status_calls wifi_init app]. intros [= <-]. reflexivity. }
  assert (Hw : closed (waiting_rounds i) = []).
  { clear. induction i as [|i IH]; [reflexivity | exact IH]. }
  destruct (wlan_status w c =? 3); cbn [snd wifi_trace];
    rewrite !closed_app, Ht0, Hw; reflexivity.
Qed.

(** X10. A failing start is fatal.  When [connect_to_wifi] raises, [main]
    raises the same error without touching a socket; when the bootstrap
    succeeds and a call of [make_socket] fails, [main] raises that failure
    without listening.  In both cases, whatever clients are waiting, the
    script has printed its first line and the lines of the bootstrap and
    nothing else: no announcement, no round. *)
Theorem main_start_failure_is_fatal :
  forall cfg w senv rounds e,
    let wifi := connect_to_wifi cfg w wifi_init in
    let r := main cfg w senv rounds [] in
    (fst wifi = Raise e ->
       fst r = Raise e /\
       socket_events (snd r) = [] /\
       script_events (snd r) = EPrint STARTED :: wifi_trace (snd wifi)) /\
    (forall ip_address,
       fst wifi = Return ip_address -> socket_failure senv = Some e ->
       fst r = Raise e /\
       ~ In (EListen (new_socket senv) 1) (snd r) /\
       script_events (snd r) = EPrint STARTED :: wifi_trace (snd wifi)).
Proof.
  intros cfg w senv rounds e wifi r. split.
  - intros Hwifi.
    assert (Hr : r = (Raise e, [Ev (EPrint STARTED)] ++ map Ev (wifi_trace (snd wifi)))).
    { unfold r. rewrite main_run. fold wifi.
      destruct wifi as [[ip|e0] ws]; cbn [fst] in Hwifi; [discriminate|].
      injection Hwifi as ->. reflexivity. }
    rewrite Hr. cbn [fst snd]. split; [reflexivity|]. split.
    + rewrite socket_events_app, socket_events_Ev. reflexivity.
    + rewrite script_events_app, script_events_Ev. reflexivity.
  - intros ip_address Hwifi Hsock.
    destruct (make_socket_fails cfg senv
                ([Ev (EPrint STARTED)] ++ map Ev (wifi_trace (snd wifi))) e Hsock)
      as [t' [Hrun [Hscript Hlisten]]].
    assert (Hr : r = (Raise e, ([Ev (EPrint STARTED)] ++ map Ev (wifi_trace (snd wifi)))
                                 ++ t')).
    { unfold r. rewrite main_run. fold wifi.
      destruct wifi as [[ip|e0] ws]; cbn [fst] in Hwifi; [|discriminate].
      cbn [snd] in Hrun |- *. rewrite Hrun. reflexivity. }
    rewrite Hr. cbn [fst snd]. split; [reflexivity|]. split.
    + rewrite !in_app_iff. intros [[H|H]|H].
      * destruct H as [H|[]]. discriminate H.
      * apply in_map_iff in H as [x [H _]]. discriminate H.
      * exact (Hlisten H).
    + rewrite !script_events_app, script_events_Ev, Hscript, app_nil_r. reflexivity.
Qed.

(** X11. After a good start ([connect_to_wifi] returns the address, no call
    of [make_socket] fails) the trace of [main] is, in this order: its first
    line, the bootstrap, the resolution of 0.0.0.0 at the configured port,
    the new socket, its bind to the resolved address, its listen with
    backlog 1, the line that announces [http://address:port], and the
    rounds; [main] ends as the serving loop ends, and over rounds the
    [except] clause can deal with it does not raise and closes every
    accepted connection once. *)
Theorem main_serves_after_start :
  forall cfg w senv rounds ip_address,
    fst (connect_to_wifi cfg w wifi_init) = Return ip_address ->
    socket_failure senv = None ->
    let wifi := connect_to_wifi cfg w wifi_init in
    let loop := serve cfg rounds handler_init in
    let port := LISTENING_PORT cfg in
    let s := new_socket senv in
    let r := main cfg w senv rounds [] in
    fst r = fst loop /\
    snd r =
      [Ev (EPrint STARTED)] ++ map Ev (wifi_trace (snd wifi))
        ++ [EGetaddrinfo (lit "0.0.0.0") port; ESocket s;
            EBind s (resolved senv (lit "0.0.0.0") port); EListen s 1;
            Ev (EPrint (lit "Listening for requests on http://" ++ ip_address
                          ++ lit ":" ++ py_str_int port ++ lit "..."))]
        ++ map Ev (trace (snd loop)) /\
    (Forall handled_round rounds ->
       fst r = Return tt /\
       closed (script_events (snd r)) = map (fun env => fst (incoming env)) rounds).
Proof.
  intros cfg w senv rounds ip_address Hwifi Hsock wifi loop port s r.
  assert (Hr : r = (fst loop,
                    [Ev (EPrint STARTED)] ++ map Ev (wifi_trace (snd wifi))
                      ++ [EGetaddrinfo (lit "0.0.0.0") port; ESocket s;
                          EBind s (resolved senv (lit "0.0.0.0") port); EListen s 1;
                          Ev (EPrint (listening_line cfg ip_address))]
                      ++ map Ev (trace (snd loop)))).
  { unfold r. rewrite main_run. fold wifi in Hwifi |- *.
    destruct wifi as [[ip|e0] ws]; cbn [fst] in Hwifi; [|discriminate].
    injection Hwifi as ->.
    rewrite (make_socket_succeeds cfg senv _ Hsock). fold port s.
    unfold run_rounds. fold loop.
    destruct loop as [res hs]. cbn [fst snd].
    rewrite <- !app_assoc. reflexivity. }
  split; [rewrite Hr; reflexivity|]. split; [rewrite Hr; reflexivity|].
  intros Hall.
  destruct (serve_handled cfg rounds handler_init Hall) as [Hret [Hclosed _]].
  fold loop in Hret, Hclosed. cbn [trace handler_init app] in Hclosed.
  rewrite Hr. cbn [fst snd]. split; [exact Hret|].
  rewrite !script_events_app, !script_events_Ev.
  cbn [script_events flat_map app].
  rewrite !closed_app, Hclosed.
  unfold wifi. rewrite connect_to_wifi_closes_nothing. reflexivity.
Qed.

(** The link is up at once, no socket call fails, one client is served. *)
Lemma main_serves_after_start_witness :
  let w := mk_wlan [40; 205; 193; 0; 171; 18]%N (fun _ => 3)
             (lit "192.168.1.20", lit "255.255.255.0", lit "192.168.1.1", lit "8.8.8.8") in
  let senv := mk_socket_env (fun _ => None) (fun host port => (host, port)) 7 in
  let env := mk_env no_fault (mk_socket 1 (lit "GET / HTTP/1.1"), (lit "192.168.1.5", 51234))
               20000 in
  fst (connect_to_wifi source_config w wifi_init) = Return (lit "192.168.1.20") /\
  socket_failure senv = None /\
  fst (main source_config w senv [env] [])
    = fst (serve source_config [env] handler_init).
Proof.
  intros w senv env.
  assert (Hwifi : fst (connect_to_wifi source_config w wifi_init)
                  = Return (lit "192.168.1.20")) by (vm_compute; reflexivity).
  split; [exact Hwifi|]. split; [reflexivity|].
  exact (proj1 (main_serves_after_start source_config w senv [env]
                  (lit "192.168.1.20") Hwifi eq_refl)).
Defined.

(** The link never comes up: [main] ends with the error of the bootstrap. *)
Lemma main_start_failure_is_fatal_witness :
  let w := mk_wlan [40; 205; 193; 0; 171; 18]%N (fun _ => 1)
             (lit "0.0.0.0", lit "255.255.255.0", lit "0.0.0.0", lit "0.0.0.0") in
  let senv := mk_socket_env (fun _ => None) (fun host port => (host, port)) 7 in
  let env := mk_env no_fault (mk_socket 1 (lit "GET / HTTP/1.1"), (lit "192.168.1.5", 51234))
               20000 in
  fst (connect_to_wifi source_config w wifi_init) = Raise CONNECTION_FAILED /\
  fst (main source_config w senv [env] []) = Raise CONNECTION_FAILED /\
  socket_events (snd (main source_config w senv [env] [])) = [].
Proof.
  intros w senv env.
  assert (Hwifi : fst (connect_to_wifi source_config w wifi_init)
                  = Raise CONNECTION_FAILED) by (vm_compute; reflexivity).
  split; [exact Hwifi|].
  pose proof (proj1 (main_start_failure_is_fatal source_config w senv [env]
                       CONNECTION_FAILED) Hwifi) as H.
  split; [exact (proj1 H) | exact (proj1 (proj2 H))].
Defined.

(** ** The console *)

Lemma printable_hex2 n : printable (hex2 n).
Proof.
  unfold hex2. repeat constructor; apply printable_hex_digit, land_15_lt.
Qed.

Lemma printable_bytes_repr_char quote c :
  printable_char quote -> printable (bytes_repr_char quote c).
Proof.
  intros Hq. unfold bytes_repr_char.
  destruct ((c =? quote)%N || (c =? 92)%N) eqn:Hesc.
  - assert (Hc : printable_char c).
    { apply orb_prop in Hesc as [H|H]; apply N.eqb_eq in H; subst c;
        [exact Hq | unfold printable_char; lia]. }
    constructor; [unfold printable_char; lia|].
    constructor; [exact Hc | constructor].
  - destruct (c =? 9)%N; [printable_lit|].
    destruct (c =? 10)%N; [printable_lit|].
    destruct (c =? 13)%N; [printable_lit|].
    destruct ((c <? 32)%N || (127 <=? c)%N) eqn:Hctl.
    + apply printable_app; [printable_lit | apply printable_hex2].
    + apply orb_false_elim in Hctl as [H1 H2].
      apply N.ltb_ge in H1. apply N.leb_gt in H2.
      constructor; [unfold printable_char; lia | constructor].
Qed.

(** The [repr] of any octets is one line of printable characters. *)
Lemma printable_bytes_repr b : printable (bytes_repr b).
Proof.
  unfold bytes_repr.
  set (quote := if existsb (N.eqb 39) b && negb (existsb (N.eqb 34) b)
                then 34%N else 39%N).
  assert (Hq : printable_char quote).
  { unfold quote, printable_char.
    destruct (existsb (N.eqb 39) b && negb (existsb (N.eqb 34) b)); lia. }
  apply printable_app; [printable_lit|].
  apply printable_app; [constructor; [exact Hq | constructor]|].
  apply printable_app; [|constructor; [exact Hq | constructor]].
  apply printable_flat_map. intros c. apply printable_bytes_repr_char, Hq.
Qed.

Lemma run_steps_printed f c ip response t r :
  printable ip ->
  run_steps f (body_steps c ip response) = (t, r) ->
  Forall printable (printed t).
Proof.
  intros Hip. unfold body_steps. cbn [run_steps].
  assert (H1 : printable (lit "Request received from " ++ ip ++ lit "."))
    by (apply printable_app; [printable_lit|];
        apply printable_app; [exact Hip | printable_lit]).
  assert (H2 : printable (lit "Sent to " ++ ip ++ lit ": " ++ bytes_repr response))
    by (apply printable_app; [printable_lit|];
        apply printable_app; [exact Hip|];
        apply printable_app; [printable_lit | apply printable_bytes_repr]).
  case_faults f; intros [= <- <-]; unfold printed; cbn [flat_map app];
    repeat (apply Forall_cons; [assumption|]); apply Forall_nil.
Qed.

(** X12. Every line a round prints is one line of printable ASCII, whatever
    the plant name and whatever fails, provided the address of the client
    and the messages of the failures are: the response is logged as the
    [repr] of its octets, which escapes the line feeds and every octet
    outside the printable range. *)
Theorem main_loop_prints_whole_lines :
  forall cfg env s,
    printable (fst (snd (incoming env))) ->
    (forall p e, fault env p = Some e -> printable (exn_str e)) ->
    exists t,
      trace (snd (main_loop cfg env s)) = trace s ++ t /\
      Forall printable (printed t).
Proof.
  intros cfg env s Hip Hmsg.
  destruct (fault env AtAccept) as [e|] eqn:Hacc.
  - exists []. split; [|constructor]. rewrite app_nil_r.
    destruct (is_Exception e) eqn:Hexc.
    + destruct (main_loop_accept_fails cfg env s e Hacc Hexc) as [e' [_ ->]].
      reflexivity.
    + unfold main_loop, enter, bind, try_except.
      assert (Hbody : forall st, main_loop_body cfg env st = (Raise e, st)).
      { intros st. unfold main_loop_body, at_site. rewrite Hacc. reflexivity. }
      rewrite Hbody, Hexc. reflexivity.
  - rewrite (main_loop_accept_ok cfg env s Hacc).
    destruct (run_steps (fault env) _) as [t [e|]] eqn:Hsteps.
    + pose proof (run_steps_printed _ _ _ _ _ _ Hip Hsteps) as Hprinted.
      destruct (run_steps_raises cfg env t e Hsteps) as [p Hp].
      pose proof (Hmsg p e Hp) as He.
      destruct (is_Exception e).
      * rewrite main_loop_handler_run.
        destruct (fault env AtHandlerClose);
          [|destruct (fault env AtHandlerPrint)]; cbn [snd trace].
        -- exists t. split; [reflexivity | exact Hprinted].
        -- exists (t ++ [EClose (fst (incoming env))]).
           split; [rewrite app_assoc; reflexivity|].
           rewrite printed_app. unfold printed at 2. cbn [flat_map app].
           rewrite app_nil_r. exact Hprinted.
        -- exists (t ++ [EClose (fst (incoming env));
                         EPrint (lit "Connection closed: " ++ exn_str e)]).
           split; [rewrite app_assoc; reflexivity|].
           rewrite printed_app. apply Forall_app. split; [exact Hprinted|].
           unfold printed. cbn [flat_map app].
           apply Forall_cons; [|apply Forall_nil].
           apply printable_app; [printable_lit | exact He].
      * exists t. split; [reflexivity | exact Hprinted].
    + exists t. split; [reflexivity|].
      exact (run_steps_printed _ _ _ _ _ _ Hip Hsteps).
Qed.

(** A plant name with a line feed and a quote in it, a failing send. *)
Lemma main_loop_prints_whole_lines_witness :
  let cfg := mk_config (lit "Yucca" ++ LF ++ DQUOTE) (decimal 600 (-1))
               (lit "Fast Internet") (lit "your_wifi_password") 30 80 in
  let env := mk_env (fault_at AtSend (mk_exn OSError (lit "[Errno 104] ECONNRESET")))
               (mk_socket 1 (lit "GET / HTTP/1.1"), (lit "192.168.1.5", 51234)) 20000 in
  printable (fst (snd (incoming env))) /\
  (forall p e, fault env p = Some e -> printable (exn_str e)) /\
  exists t,
    trace (snd (main_loop cfg env handler_init)) = trace handler_init ++ t /\
    Forall printable (printed t).
Proof.
  intros cfg env.
  assert (Hip : printable (fst (snd (incoming env)))) by printable_lit.
  assert (Hmsg : forall p e, fault env p = Some e -> printable (exn_str e)).
  { intros p e. destruct p; simpl; intros H; inversion H; printable_lit. }
  split; [exact Hip|]. split; [exact Hmsg|].
  exact (main_loop_prints_whole_lines cfg env handler_init Hip Hmsg).
Defined.
